(** * jest-allure-circus: the Allure reporter state machine

    A shallow embedding of [src/allure-reporter.ts] (class [AllureReporter])
    and of the part of [src/allure-base-environment.ts] that drives it,
    together with the properties of the reporter stated in the specification.

    JavaScript values are modelled as follows.
    - A string is a [string] whose characters stand for code units below 256.
    - An array is a [list] in index order: [push] appends at the end, [pop]
      removes the last element, and the "current" element is the last one.
    - [undefined] is [None] wherever a field or argument may be missing.
    - A method that may [throw] returns an [Outcome]: the state reached, and
      the exception if one was raised.
    - Objects that are reachable through two paths (the fixture behind
      [currentExecutable], which also sits in its suite's container) live in
      a store and are referred to by their address. *)

From Stdlib Require Import ZArith String Ascii List Bool Lia.
From stdpp Require Import base list.
Import ListNotations.

Local Open Scope string_scope.
Local Open Scope list_scope.
Local Open Scope nat_scope.

(** ** JavaScript strings *)

Module Js.

Definition chr (n : nat) : ascii := ascii_of_nat n.
Definition LF : ascii := chr 10.
Definition CR : ascii := chr 13.
Definition nl : string := String LF EmptyString.
Definition dquote : string := String (chr 34) EmptyString.
Definition backslash : ascii := chr 92.

(** [s.startsWith(p)] *)
Definition startsWith (s p : string) : bool := String.prefix p s.

(** [s.includes(p)] *)
Fixpoint includes (s p : string) : bool :=
  String.prefix p s ||
  match s with
  | EmptyString => false
  | String _ s' => includes s' p
  end.

(** [s.slice(n)] for [0 <= n] *)
Definition slice_from (n : nat) (s : string) : string :=
  String.substring n (String.length s - n) s.

(** [s.replace(pat, rep)] with a string pattern: the first occurrence only.
    Every replacement string used by the reporter is free of [$]. *)
Fixpoint replace (s pat rep : string) : string :=
  if String.prefix pat s then rep ++ slice_from (String.length pat) s
  else match s with
       | EmptyString => EmptyString
       | String c s' => String c (replace s' pat rep)
       end.

(** [s.split(c)] with a one-character separator *)
Fixpoint split (c : ascii) (s : string) : list string :=
  match s with
  | EmptyString => [EmptyString]
  | String a s' =>
      if Ascii.eqb a c then EmptyString :: split c s'
      else match split c s' with
           | [] => [String a EmptyString]
           | h :: t => String a h :: t
           end
  end.

(** [a.join(sep)] *)
Definition join (sep : string) (a : list string) : string := String.concat sep a.

(** An absent array element is rendered as the empty string by [join], and
    as the text [undefined] by a template literal or a string coercion. *)
Definition or_empty (o : option string) : string := default EmptyString o.
Definition to_text (o : option string) : string := default "undefined" o.

(** Truthiness of a possibly undefined string. *)
Definition truthy (o : option string) : bool :=
  match o with
  | Some (String _ _) => true
  | _ => false
  end.

(** [a || b] on possibly undefined strings *)
Definition or_else (a b : option string) : option string :=
  if truthy a then a else b.

(** White space as matched by [\s] and removed by [trimStart], and the line
    terminators excluded by [.], among the code units below 256. *)
Definition is_space (c : ascii) : bool :=
  let n := nat_of_ascii c in
  ((9 <=? n) && (n <=? 13)) || (n =? 32) || (n =? 160).

Definition is_line_terminator (c : ascii) : bool :=
  Ascii.eqb c LF || Ascii.eqb c CR.

Fixpoint trimStart_chars (s : list ascii) : list ascii :=
  match s with
  | c :: s' => if is_space c then trimStart_chars s' else s
  | [] => []
  end.

Definition trimStart (s : string) : string :=
  string_of_list_ascii (trimStart_chars (list_ascii_of_string s)).

End Js.

(** ** Regular expressions

    A backtracking matcher with the priorities of the ECMAScript one: the
    left alternative first, greedy repetition first with one more round,
    lazy repetition first with none.  A position is the text already read
    (most recent character first) and the text still to read. *)

Module Regex.

Inductive regex : Type :=
| Eps
| Bol                                   (* [^] under the [m] flag *)
| Cls (p : ascii -> bool)               (* one character of a class *)
| Cat (r1 r2 : regex)
| Alt (r1 r2 : regex)
| Star (r : regex)                      (* [r*] *)
| StarLazy (r : regex).                 (* [r*?] *)

Definition position : Type := list ascii * list ascii.

Definition at_line_start (z : position) : bool :=
  match z.1 with
  | [] => true
  | c :: _ => Js.is_line_terminator c
  end.

Definition or_try {R} (a b : option R) : option R :=
  match a with Some x => Some x | None => b end.

(** [run r z k]: match [r] at [z], then continue with [k]; [None] is failure
    and makes the caller backtrack.  A round of a repetition that reads
    nothing is rejected, so a repetition entered with [n] characters left
    runs at most [n] rounds. *)
Fixpoint run {R} (r : regex) (z : position) (k : position -> option R) : option R :=
  match r with
  | Eps => k z
  | Bol => if at_line_start z then k z else None
  | Cls p =>
      match z.2 with
      | c :: rest => if p c then k (c :: z.1, rest) else None
      | [] => None
      end
  | Cat r1 r2 => run r1 z (fun z' => run r2 z' k)
  | Alt r1 r2 => or_try (run r1 z k) (run r2 z k)
  | Star r1 =>
      (fix rounds (n : nat) (z : position) : option R :=
         match n with
         | O => k z
         | S n' =>
             or_try
               (run r1 z (fun z' =>
                  if length z'.2 <? length z.2 then rounds n' z' else None))
               (k z)
         end) (length z.2) z
  | StarLazy r1 =>
      (fix rounds (n : nat) (z : position) : option R :=
         match n with
         | O => k z
         | S n' =>
             or_try
               (k z)
               (run r1 z (fun z' =>
                  if length z'.2 <? length z.2 then rounds n' z' else None))
         end) (length z.2) z
  end.

Definition Opt (r : regex) : regex := Alt r Eps.                 (* [r?] *)
Definition Chr (c : ascii) : regex := Cls (Ascii.eqb c).
Definition OneOf (s : string) : regex :=
  Cls (fun c => existsb (Ascii.eqb c) (list_ascii_of_string s)).
Definition between (lo hi : string) (c : ascii) : bool :=
  match lo, hi with
  | String l _, String h _ =>
      (nat_of_ascii l <=? nat_of_ascii c) && (nat_of_ascii c <=? nat_of_ascii h)
  | _, _ => false
  end.

Fixpoint power (n : nat) (r : regex) : regex :=
  match n with O => Eps | S n' => Cat r (power n' r) end.
Fixpoint upto (n : nat) (r : regex) : regex :=
  match n with O => Eps | S n' => Opt (Cat r (upto n' r)) end.
(** [r{lo,hi}] *)
Definition Rep (lo hi : nat) (r : regex) : regex := Cat (power lo r) (upto (hi - lo) r).

(** The match of [r] that starts at [z], as the position where it ends. *)
Definition match_at (r : regex) (z : position) : option position :=
  run r z Some.

(** The first match of [r] at or after [z]: where it starts and ends. *)
Fixpoint search (r : regex) (before after : list ascii)
  : option (position * position) :=
  match match_at r (before, after) with
  | Some e => Some ((before, after), e)
  | None =>
      match after with
      | [] => None
      | c :: rest => search r (c :: before) rest
      end
  end.

(** The text between two positions of one string. *)
Definition matched (start stop : position) : list ascii :=
  take (length start.2 - length stop.2) start.2.

(** [s.replace(r, '')] under the [g] flag: every match is removed, scanning
    from the left and resuming after each match. *)
Fixpoint remove_all (fuel : nat) (r : regex) (before after : list ascii) : list ascii :=
  match fuel with
  | O => after
  | S fuel' =>
      match match_at r (before, after), after with
      | Some e, c :: rest =>
          if length e.2 <? length after then remove_all fuel' r e.1 e.2
          else c :: remove_all fuel' r (c :: before) rest
      | Some _, [] => []
      | None, c :: rest => c :: remove_all fuel' r (c :: before) rest
      | None, [] => []
      end
  end.

End Regex.

(** ** MD5

    [createHash('md5').update(s).digest('hex')] of Node's [crypto] module:
    the MD5 digest (RFC 1321) of the UTF-8 encoding of [s], in lower-case
    hexadecimal.  Words are 32-bit integers kept in [Z] with the wrap-around
    written out. *)

Module MD5.

Local Open Scope Z_scope.

Definition add32 (x y : Z) : Z := (x + y) mod 2 ^ 32.
Definition not32 (x : Z) : Z := Z.lxor x 0xFFFFFFFF.
Definition rotl32 (x c : Z) : Z :=
  Z.lor (Z.shiftl x c mod 2 ^ 32) (Z.shiftr x (32 - c)).

Definition shifts : list Z :=
  [ 7; 12; 17; 22;  7; 12; 17; 22;  7; 12; 17; 22;  7; 12; 17; 22;
    5;  9; 14; 20;  5;  9; 14; 20;  5;  9; 14; 20;  5;  9; 14; 20;
    4; 11; 16; 23;  4; 11; 16; 23;  4; 11; 16; 23;  4; 11; 16; 23;
    6; 10; 15; 21;  6; 10; 15; 21;  6; 10; 15; 21;  6; 10; 15; 21 ].

Definition sines : list Z :=
  [ 0xd76aa478; 0xe8c7b756; 0x242070db; 0xc1bdceee;
    0xf57c0faf; 0x4787c62a; 0xa8304613; 0xfd469501;
    0x698098d8; 0x8b44f7af; 0xffff5bb1; 0x895cd7be;
    0x6b901122; 0xfd987193; 0xa679438e; 0x49b40821;
    0xf61e2562; 0xc040b340; 0x265e5a51; 0xe9b6c7aa;
    0xd62f105d; 0x02441453; 0xd8a1e681; 0xe7d3fbc8;
    0x21e1cde6; 0xc33707d6; 0xf4d50d87; 0x455a14ed;
    0xa9e3e905; 0xfcefa3f8; 0x676f02d9; 0x8d2a4c8a;
    0xfffa3942; 0x8771f681; 0x6d9d6122; 0xfde5380c;
    0xa4beea44; 0x4bdecfa9; 0xf6bb4b60; 0xbebfbc70;
    0x289b7ec6; 0xeaa127fa; 0xd4ef3085; 0x04881d05;
    0xd9d4d039; 0xe6db99e5; 0x1fa27cf8; 0xc4ac5665;
    0xf4292244; 0x432aff97; 0xab9423a7; 0xfc93a039;
    0x655b59c3; 0x8f0ccc92; 0xffeff47d; 0x85845dd1;
    0x6fa87e4f; 0xfe2ce6e0; 0xa3014314; 0x4e0811a1;
    0xf7537e82; 0xbd3af235; 0x2ad7d2bb; 0xeb86d391 ].

(** The UTF-8 encoding of a code unit below 256. *)
Definition utf8 (c : ascii) : list Z :=
  let n := Z.of_nat (nat_of_ascii c) in
  if n <? 128 then [n]
  else [Z.lor 0xC0 (Z.shiftr n 6); Z.lor 0x80 (Z.land n 0x3F)].

Definition bytes_of_string (s : string) : list Z :=
  flat_map utf8 (list_ascii_of_string s).

(** [n] bytes of [x], least significant first. *)
Fixpoint le_bytes (n : nat) (x : Z) : list Z :=
  match n with
  | O => []
  | S n' => x mod 256 :: le_bytes n' (x / 256)
  end.

Fixpoint le_word (bs : list Z) : Z :=
  match bs with
  | [] => 0
  | b :: bs' => b + 256 * le_word bs'
  end.

Definition pad (m : list Z) : list Z :=
  let len := Z.of_nat (length m) in
  m ++ [0x80] ++ repeat 0 (Z.to_nat ((55 - len) mod 64))
    ++ le_bytes 8 ((8 * len) mod 2 ^ 64).

(** The sixteen words of a 64-byte block. *)
Definition words (block : list Z) : list Z :=
  map (fun j => le_word (take 4 (drop (4 * j) block))) (seq 0 16).

Record regs : Type := Regs { rA : Z; rB : Z; rC : Z; rD : Z }.

Definition step (M : list Z) (r : regs) (i : nat) : regs :=
  let '(Regs A B C D) := r in
  let iz := Z.of_nat i in
  let '(F, g) :=
    if iz <? 16 then (Z.lor (Z.land B C) (Z.land (not32 B) D), iz)
    else if iz <? 32 then (Z.lor (Z.land D B) (Z.land (not32 D) C), (5 * iz + 1) mod 16)
    else if iz <? 48 then (Z.lxor (Z.lxor B C) D, (3 * iz + 5) mod 16)
    else (Z.lxor C (Z.lor B (not32 D)), (7 * iz) mod 16) in
  let F' := add32 (add32 (add32 F A) (nth i sines 0)) (nth (Z.to_nat g) M 0) in
  Regs D (add32 B (rotl32 F' (nth i shifts 0))) B C.

Definition compress (h : regs) (block : list Z) : regs :=
  let r := fold_left (step (words block)) (seq 0 64) h in
  Regs (add32 (rA h) (rA r)) (add32 (rB h) (rB r))
       (add32 (rC h) (rC r)) (add32 (rD h) (rD r)).

Fixpoint blocks (n : nat) (m : list Z) : list (list Z) :=
  match n with
  | O => []
  | S n' => take 64 m :: blocks n' (drop 64 m)
  end.

Definition init : regs := Regs 0x67452301 0xefcdab89 0x98badcfe 0x10325476.

Definition digest (m : list Z) : list Z :=
  let p := pad m in
  let h := fold_left compress (blocks (length p / 64) p) init in
  le_bytes 4 (rA h) ++ le_bytes 4 (rB h) ++ le_bytes 4 (rC h) ++ le_bytes 4 (rD h).

Definition hex_digit (d : Z) : ascii :=
  nth (Z.to_nat d) (list_ascii_of_string "0123456789abcdef") "0"%char.

Definition hex (bs : list Z) : string :=
  string_of_list_ascii (flat_map (fun b => [hex_digit (b / 16); hex_digit (b mod 16)]) bs).

Definition md5_hex (s : string) : string := hex (digest (bytes_of_string s)).

End MD5.

(** ** The report sink

    The classes of [allure-js-commons] the reporter talks to.  They are not
    part of this repository; what is modelled is the state a call leaves
    behind: the fields of the result objects, the files written through the
    runtime, and how often the wall clock and the identifier generator were
    consulted. *)

Module Sink.

Inductive Status : Type := PASSED | FAILED | BROKEN | SKIPPED.
Inductive Stage : Type := SCHEDULED | RUNNING | FINISHED | PENDING | INTERRUPTED.
Inductive LinkType : Type := ISSUE | TMS.

#[global] Instance Status_eq_dec : EqDecision Status.
Proof. solve_decision. Defined.
#[global] Instance Stage_eq_dec : EqDecision Stage.
Proof. solve_decision. Defined.

(** The members of [LabelName] used by the reporter. *)
Module LabelName.
Definition TAG : string := "tag".
Definition THREAD : string := "thread".
Definition PARENT_SUITE : string := "parentSuite".
Definition SUITE : string := "suite".
Definition SUB_SUITE : string := "subSuite".
Definition PACKAGE : string := "package".
End LabelName.

Record StatusDetails : Type := mkDetails {
  message : option string;
  trace : option string
}.

Record Label : Type := mkLabel { lname : string; lvalue : string }.
Record Link : Type := mkLink { url : string; link_name : string; link_type : LinkType }.

(** The result wrapped by an [AllureTest]. *)
Record AllureTest : Type := mkTest {
  uuid : string;
  historyId : string;
  name : string;
  fullName : option string;
  description : option string;
  status : option Status;
  statusDetails : StatusDetails;
  stage : Stage;
  start : Z;
  stop : option Z;
  labels : list Label;
  links : list Link
}.

(** The result wrapped by an [AllureStep]. *)
Record AllureStep : Type := mkStep {
  step_name : string;
  step_status : option Status;
  step_stage : Stage;
  step_start : Z;
  step_stop : option Z
}.

(** The fixture wrapped by an [ExecutableItemWrapper]. *)
Record Fixture : Type := mkFixture {
  fx_status : option Status;
  fx_statusDetails : StatusDetails;
  fx_stage : Stage
}.

(** The container wrapped by an [AllureGroup]; fixtures are held by address. *)
Record AllureGroup : Type := mkGroup {
  group_uuid : string;
  group_name : string;
  children : list string;
  befores : list nat;
  afters : list nat
}.

(** A file the runtime has written. *)
Inductive File : Type :=
| ResultFile (t : AllureTest)
| ContainerFile (g : AllureGroup) (before after : list Fixture).

(** The host the sink runs on: its wall clock and identifier generator, as
    the sequence of values they hand out. *)
Record Host : Type := mkHost {
  Date_now : nat -> Z;
  randomUUID : nat -> string
}.

(** An [AllureRuntime] and the objects created through it. *)
Record AllureRuntime : Type := mkRuntime {
  fixtures : list Fixture;
  files : list File;
  clock_reads : nat;
  uuid_draws : nat
}.

Definition empty_details : StatusDetails := mkDetails None None.

(** [name || "Unnamed"] *)
Definition or_unnamed (n : string) : string :=
  match n with EmptyString => "Unnamed" | _ => n end.

Section Library.
Context (host : Host).

Definition now (rt : AllureRuntime) : Z * AllureRuntime :=
  (Date_now host (clock_reads rt),
   mkRuntime (fixtures rt) (files rt) (S (clock_reads rt)) (uuid_draws rt)).

Definition fresh (rt : AllureRuntime) : string * AllureRuntime :=
  (randomUUID host (uuid_draws rt),
   mkRuntime (fixtures rt) (files rt) (clock_reads rt) (S (uuid_draws rt))).

Definition write (f : File) (rt : AllureRuntime) : AllureRuntime :=
  mkRuntime (fixtures rt) (files rt ++ [f]) (clock_reads rt) (uuid_draws rt).

(** [runtime.startGroup(name)] *)
Definition new_group (n : string) (rt : AllureRuntime) : AllureGroup * AllureRuntime :=
  let '(u, rt) := fresh rt in
  (mkGroup u (or_unnamed n) [] [] [], rt).

Definition add_child (u : string) (g : AllureGroup) : AllureGroup :=
  mkGroup (group_uuid g) (group_name g) (children g ++ [u]) (befores g) (afters g).

(** [group.startTest(name)]: the test result starts with a random [uuid] and
    a random [historyId], no status, stage [PENDING] and the current time. *)
Definition new_test (n : string) (rt : AllureRuntime) : AllureTest * AllureRuntime :=
  let '(u, rt) := fresh rt in
  let '(h, rt) := fresh rt in
  let '(t, rt) := now rt in
  (mkTest u h (or_unnamed n) None None None empty_details PENDING t None [] [], rt).

(** [group.startGroup(name)] and [group.startTest(name)]: the child is
    created and its identifier recorded among the children of [g]. *)
Definition group_startGroup (n : string) (g : AllureGroup) (rt : AllureRuntime)
  : AllureGroup * AllureGroup * AllureRuntime :=
  let '(c, rt) := new_group n rt in (c, add_child (group_uuid c) g, rt).

Definition group_startTest (n : string) (g : AllureGroup) (rt : AllureRuntime)
  : AllureTest * AllureGroup * AllureRuntime :=
  let '(t, rt) := new_test n rt in (t, add_child (uuid t) g, rt).

(** [fixtureResult()] *)
Definition new_fixture : Fixture := mkFixture (Some BROKEN) empty_details PENDING.

(** [group.addBefore()] and [group.addAfter()]: the fixture is stored in the
    container, the wrapper returned refers to the same object. *)
Definition addBefore (g : AllureGroup) (rt : AllureRuntime)
  : nat * AllureGroup * AllureRuntime :=
  let a := length (fixtures rt) in
  (a,
   mkGroup (group_uuid g) (group_name g) (children g) (befores g ++ [a]) (afters g),
   mkRuntime (fixtures rt ++ [new_fixture]) (files rt) (clock_reads rt) (uuid_draws rt)).

Definition addAfter (g : AllureGroup) (rt : AllureRuntime)
  : nat * AllureGroup * AllureRuntime :=
  let a := length (fixtures rt) in
  (a,
   mkGroup (group_uuid g) (group_name g) (children g) (befores g) (afters g ++ [a]),
   mkRuntime (fixtures rt ++ [new_fixture]) (files rt) (clock_reads rt) (uuid_draws rt)).

Definition deref (rt : AllureRuntime) (as_ : list nat) : list Fixture :=
  omap (fun a => fixtures rt !! a) as_.

(** [group.endGroup()] *)
Definition endGroup (g : AllureGroup) (rt : AllureRuntime) : AllureRuntime :=
  write (ContainerFile g (deref rt (befores g)) (deref rt (afters g))) rt.

Definition set_stop (t : AllureTest) (z : Z) : AllureTest :=
  mkTest (uuid t) (historyId t) (name t) (fullName t) (description t) (status t)
         (statusDetails t) (stage t) (start t) (Some z) (labels t) (links t).

(** [test.endTest()]: the stop time is recorded and the result written. *)
Definition endTest (t : AllureTest) (rt : AllureRuntime) : AllureTest * AllureRuntime :=
  let '(z, rt) := now rt in
  let t' := set_stop t z in
  (t', write (ResultFile t') rt).

(** [step.endStep()]: the stop time is recorded. *)
Definition endStep (s : AllureStep) (rt : AllureRuntime) : AllureStep * AllureRuntime :=
  let '(z, rt) := now rt in
  (mkStep (step_name s) (step_status s) (step_stage s) (step_start s) (Some z), rt).

End Library.

(** [test.addLabel(name, value)] *)
Definition addLabel (n v : string) (t : AllureTest) : AllureTest :=
  mkTest (uuid t) (historyId t) (name t) (fullName t) (description t) (status t)
         (statusDetails t) (stage t) (start t) (stop t) (labels t ++ [mkLabel n v]) (links t).

(** [test.addLink(url, name, type)] *)
Definition addLink (u n : string) (k : LinkType) (t : AllureTest) : AllureTest :=
  mkTest (uuid t) (historyId t) (name t) (fullName t) (description t) (status t)
         (statusDetails t) (stage t) (start t) (stop t) (labels t) (links t ++ [mkLink u n k]).

(** Assignments to the fields of a test. *)
Definition set_fullName (v : string) (t : AllureTest) : AllureTest :=
  mkTest (uuid t) (historyId t) (name t) (Some v) (description t) (status t)
         (statusDetails t) (stage t) (start t) (stop t) (labels t) (links t).
Definition set_historyId (v : string) (t : AllureTest) : AllureTest :=
  mkTest (uuid t) v (name t) (fullName t) (description t) (status t)
         (statusDetails t) (stage t) (start t) (stop t) (labels t) (links t).
Definition set_description (v : string) (t : AllureTest) : AllureTest :=
  mkTest (uuid t) (historyId t) (name t) (fullName t) (Some v) (status t)
         (statusDetails t) (stage t) (start t) (stop t) (labels t) (links t).
Definition set_status (v : Status) (t : AllureTest) : AllureTest :=
  mkTest (uuid t) (historyId t) (name t) (fullName t) (description t) (Some v)
         (statusDetails t) (stage t) (start t) (stop t) (labels t) (links t).
Definition set_statusDetails (v : StatusDetails) (t : AllureTest) : AllureTest :=
  mkTest (uuid t) (historyId t) (name t) (fullName t) (description t) (status t)
         v (stage t) (start t) (stop t) (labels t) (links t).
Definition set_stage (v : Stage) (t : AllureTest) : AllureTest :=
  mkTest (uuid t) (historyId t) (name t) (fullName t) (description t) (status t)
         (statusDetails t) v (start t) (stop t) (labels t) (links t).

(** Assignments through an [ExecutableItemWrapper]: the fixture at address
    [a] is updated in place. *)
Definition update_fixture (a : nat) (f : Fixture -> Fixture) (rt : AllureRuntime)
  : AllureRuntime :=
  mkRuntime (alter f a (fixtures rt)) (files rt) (clock_reads rt) (uuid_draws rt).

End Sink.

(** ** Values received from the test runner *)

Module Jest.

(** [matcherResult.message]: the text, or a function that renders it. *)
Inductive MatcherMessage : Type :=
| Text (s : string)
| Thunk (s : string).

Definition rendered (m : MatcherMessage) : string :=
  match m with Text s => s | Thunk s => s end.

(** A value found in [test.errors] or passed with a hook failure: an object
    with the properties the reporter reads, a thrown string, nothing
    ([undefined] or [null]), or an array of such values. *)
#[warnings="-register-all"]
Inductive Thrown : Type :=
| ErrorObject (name message stack : option string) (matcherResult : option MatcherMessage)
| ErrorString (s : string)
| Nothing
| ErrorArray (items : list Thrown).

(** [Circus.TestEntry]: [fn] is the source text of the test function as
    [fn.toString()] gives it. *)
Record TestEntry : Type := mkEntry {
  test_name : string;
  fn : option string;
  mode : option string;
  errors : list Thrown
}.

(** [Circus.State]: [state.parentProcess?.env?.JEST_WORKER_ID]. *)
Record State : Type := mkState { JEST_WORKER_ID : option string }.

(** A value of a pragma as [jest-docblock] returns it: a string, or an
    array of strings for a pragma that occurs more than once. *)
Inductive PragmaValue : Type :=
| PString (s : string)
| PArray (vs : list string).

End Jest.

(** ** The reporter: text processing *)

Module Text.

Import Regex.

Definition Concat (rs : list regex) : regex := fold_right Cat Eps rs.
Definition Lit (s : string) : regex := Concat (map Chr (list_ascii_of_string s)).
Definition any : regex := Cls (fun _ => true).
Definition dot : regex := Cls (fun c => negb (Js.is_line_terminator c)).
Definition digit : regex := Cls (between "0" "9").

(** The pattern of [replaceANSITags], piece by piece:
    [[\u001b\u009b]], [[[()#;?]*], the optional group of [[0-9]{1,4}]
    followed by any number of [;[0-9]{0,4}], and the final class
    [[0-9A-ORZcf-nqry=><]]. *)
Definition ansiRe : regex :=
  Concat
    [ Cls (fun c => Ascii.eqb c (Js.chr 27) || Ascii.eqb c (Js.chr 155));
      Star (OneOf "[()#;?");
      Opt (Concat [Rep 1 4 digit; Star (Concat [Chr ";"; Rep 0 4 digit])]);
      Cls (fun c => between "0" "9" c || between "A" "O" c || Ascii.eqb c "R"
                    || Ascii.eqb c "Z" || Ascii.eqb c "c" || between "f" "n" c
                    || Ascii.eqb c "q" || Ascii.eqb c "r" || Ascii.eqb c "y"
                    || Ascii.eqb c "=" || Ascii.eqb c ">" || Ascii.eqb c "<") ].

(** [entry.replace(ansiRe, '')] on a string *)
Definition strip_ansi (s : string) : string :=
  let cs := list_ascii_of_string s in
  string_of_list_ascii (remove_all (length cs) ansiRe [] cs).

(** The pattern of [extractDocBlock], under the flags [g] and [m]: a line
    start, white space, a slash and a star, an optional second star, as few
    as possible of [.] or [\r?\n], and a star and a slash. *)
Definition docblockRe : regex :=
  Concat
    [ Bol; Star (Cls Js.is_space);
      Chr "/"; Chr "*"; Opt (Chr "*");
      StarLazy (Alt dot (Concat [Opt (Chr Js.CR); Chr Js.LF]));
      Chr "*"; Chr "/" ].

(** [extractDocBlock]: the first match of [docblockRe], without the white
    space it starts with; the empty string when there is no match. *)
Definition extractDocBlock (contents : string) : string :=
  match search docblockRe [] (list_ascii_of_string contents) with
  | Some (b, e) => Js.trimStart (string_of_list_ascii (matched b e))
  | None => EmptyString
  end.

(** The pattern that [extractCodeDetails] splits at: the word [expect] and
    everything after it, as one capture group. *)
Definition expectRe : regex := Concat [Lit "expect"; Star any].

(** [s.split(expectRe)]: the match runs to the end of [s], so the pieces are
    the text before it, the captured match, and the empty rest. *)
Definition split_expect (s : string) : list string :=
  match search expectRe [] (list_ascii_of_string s) with
  | Some (b, e) =>
      [ string_of_list_ascii (rev b.1);
        string_of_list_ascii (matched b e);
        string_of_list_ascii e.2 ]
  | None => [s]
  end.

End Text.

(** ** The reporter *)

Module Reporter.

Import Sink Jest.

(** Exceptions: [new Error(message)] raised by the reporter itself, and the
    [TypeError] of the engine for a property or method of a value that has
    none. *)
Inductive exn : Type :=
| Error (message : string)
| TypeError.

Inductive Result (A : Type) : Type :=
| Ok (a : A)
| Raise (e : exn).
Arguments Ok {A} a.
Arguments Raise {A} e.

(** Modelled from the spec: the type [Labels] of [jest-allure-interface],
    "(name, value, optional ordinal index)". *)
Record Labels : Type := mkLabels {
  label_name : string;
  label_value : string;
  label_index : option nat
}.

(** A reference to an object: [new Set] tells objects apart by identity,
    not by content. *)
Record Ref (A : Type) : Type := mkRef { address : nat; target : A }.
Arguments mkRef {A}.
Arguments address {A}.
Arguments target {A}.

Record AllureReporter : Type := mkReporter {
  currentExecutable : option nat;
  allureRuntime : AllureRuntime;
  suites : list AllureGroup;
  steps : list AllureStep;
  tests : list AllureTest;
  jiraUrl : string;
  tmsUrl : string;
  testNames : list string;
  addCodeInReport : bool;
  labels : list (Ref Labels)
}.

(** The state after a call, and the exception if one was raised. *)
Inductive Outcome : Type :=
| Returns (r : AllureReporter)
| Throws (e : exn) (r : AllureReporter).

Definition state_of (o : Outcome) : AllureReporter :=
  match o with
  | Returns r => r
  | Throws _ r => r
  end.

Definition and_then (o : Outcome) (k : AllureReporter -> Outcome) : Outcome :=
  match o with
  | Returns r => k r
  | Throws e r => Throws e r
  end.

Definition set_currentExecutable (v : option nat) (r : AllureReporter) :=
  mkReporter v (allureRuntime r) (suites r) (steps r) (tests r) (jiraUrl r)
             (tmsUrl r) (testNames r) (addCodeInReport r) (labels r).
Definition set_allureRuntime (v : AllureRuntime) (r : AllureReporter) :=
  mkReporter (currentExecutable r) v (suites r) (steps r) (tests r) (jiraUrl r)
             (tmsUrl r) (testNames r) (addCodeInReport r) (labels r).
Definition set_suites (v : list AllureGroup) (r : AllureReporter) :=
  mkReporter (currentExecutable r) (allureRuntime r) v (steps r) (tests r) (jiraUrl r)
             (tmsUrl r) (testNames r) (addCodeInReport r) (labels r).
Definition set_steps (v : list AllureStep) (r : AllureReporter) :=
  mkReporter (currentExecutable r) (allureRuntime r) (suites r) v (tests r) (jiraUrl r)
             (tmsUrl r) (testNames r) (addCodeInReport r) (labels r).
Definition set_tests (v : list AllureTest) (r : AllureReporter) :=
  mkReporter (currentExecutable r) (allureRuntime r) (suites r) (steps r) v (jiraUrl r)
             (tmsUrl r) (testNames r) (addCodeInReport r) (labels r).
Definition set_testNames (v : list string) (r : AllureReporter) :=
  mkReporter (currentExecutable r) (allureRuntime r) (suites r) (steps r) (tests r)
             (jiraUrl r) (tmsUrl r) v (addCodeInReport r) (labels r).

Definition set_labels (v : list (Ref Labels)) (r : AllureReporter) :=
  mkReporter (currentExecutable r) (allureRuntime r) (suites r) (steps r) (tests r)
             (jiraUrl r) (tmsUrl r) (testNames r) (addCodeInReport r) v.

(** The current element of a stack is replaced by its updated version. *)
Definition set_top {A} (x : A) (l : list A) : list A := removelast l ++ [x].

(** What the reporter needs from outside the repository: the host of the
    sink, [os.type()], [parseWithComments] of [jest-docblock] (the comments
    and the entries of the pragmas in the order [Object.entries] lists
    them) and [prettier.format] with the TypeScript parser. *)
Record Environment : Type := mkEnvironment {
  host : Host;
  os_type : string;
  parseWithComments : string -> string * list (string * PragmaValue);
  prettier_format : string -> string
}.

(** The options of the constructor that bear on the modelled operations. *)
Record Options : Type := mkOptions {
  opt_allureRuntime : AllureRuntime;
  opt_jiraUrl : option string;
  opt_tmsUrl : option string;
  opt_labels : list (Ref Labels);
  opt_addCodeInReport : option bool
}.

Definition README : string :=
  "https://github.com/c4lifa/jest-allure-circus/blob/master/README.md".

Definition new (options : Options) : AllureReporter :=
  mkReporter None (opt_allureRuntime options) [] [] []
             (default README (opt_jiraUrl options))
             (default README (opt_tmsUrl options))
             []
             (default true (opt_addCodeInReport options))
             [].

Definition currentSuite (r : AllureReporter) : option AllureGroup := last (suites r).
Definition currentStep (r : AllureReporter) : option AllureStep := last (steps r).
Definition currentTest (r : AllureReporter) : option AllureTest := last (tests r).

Definition pushStep (s : AllureStep) (r : AllureReporter) := set_steps (steps r ++ [s]) r.
Definition popStep (r : AllureReporter) := set_steps (removelast (steps r)) r.
Definition pushTest (t : AllureTest) (r : AllureReporter) := set_tests (tests r ++ [t]) r.
Definition popTest (r : AllureReporter) := set_tests (removelast (tests r)) r.
Definition pushSuite (g : AllureGroup) (r : AllureReporter) := set_suites (suites r ++ [g]) r.
Definition popSuite (r : AllureReporter) := set_suites (removelast (suites r)) r.

(** *** The error classifier *)

(** [_.flattenDeep(error)] *)
Fixpoint flattenDeep (e : Thrown) : list Thrown :=
  match e with
  | ErrorArray items => flat_map flattenDeep items
  | _ => [e]
  end.

(** The properties [name], [message], [stack] and [matcherResult] of a
    value; reading a property of [undefined] is a [TypeError]. *)
Definition properties (e : Thrown)
  : Result (option string * option string * option string * option MatcherMessage) :=
  match e with
  | ErrorObject n m s mr => Ok (n, m, s, mr)
  | ErrorString _ => Ok (None, None, None, None)
  | ErrorArray _ => Ok (None, None, None, None)
  | Nothing => Raise TypeError
  end.

(** [replaceANSITags(entry)]: only a string has the method [replace]. *)
Definition replaceANSITags (entry : option string) : Result string :=
  match entry with
  | Some s => Ok (Text.strip_ansi s)
  | None => Raise TypeError
  end.

(** The raw error used as trace: a string if the error is one. *)
Definition as_string (e : Thrown) : option string :=
  match e with
  | ErrorString s => Some s
  | _ => None
  end.

Definition handleError (error : Thrown) : Result (Status * string * string) :=
  let error :=
    match error with
    | ErrorArray _ => hd Nothing (flattenDeep error)
    | _ => error
    end in
  match properties error with
  | Raise e => Raise e
  | Ok (name, message, stack, matcherResult) =>
      let '(status, message, trace) :=
        match matcherResult with
        | Some m =>
            let lines := Js.split Js.LF (rendered m) in
            (FAILED,
             Some (Js.join Js.nl [Js.or_empty (lines !! 0); Js.or_empty (lines !! 1)]),
             Js.or_else stack (Some (Js.join Js.nl (drop 2 lines))))
        | None => (BROKEN, name, Js.or_else stack message)
        end in
      let '(message, trace) :=
        if negb (Js.truthy message) && Js.truthy trace
        then (trace,
              option_map (fun s => Js.replace s (Js.to_text trace) "No stack trace provided")
                         stack)
        else (message, trace) in
      let trace :=
        match trace with
        | Some t =>
            if Js.includes t (Js.to_text message)
            then Some (Js.replace t (Js.to_text message) "")
            else trace
        | None => None
        end in
      let '(message, trace) :=
        if negb (Js.truthy message)
        then (Some "Error. Expand for more details.", as_string error)
        else (message, trace) in
      match replaceANSITags message with
      | Raise e => Raise e
      | Ok message =>
          match replaceANSITags trace with
          | Raise e => Raise e
          | Ok trace => Ok (status, message, trace)
          end
      end
  end.

(** [if (error)]: nothing and the empty string are falsy. *)
Definition is_truthy (e : Thrown) : bool :=
  match e with
  | Nothing => false
  | ErrorString EmptyString => false
  | _ => true
  end.

(** *** Labels and links *)

Section WithReporter.
Context (r : AllureReporter).

(** [setAllureLabelsAndLinks]: [currentTest.info.name] is compared with
    [this.testNames[index]], which is [undefined] out of range. *)
Definition setAllureLabelsAndLinks (currentTest : AllureTest) (labelName value : string)
    (index : option nat) : AllureTest :=
  if match index with
     | None => true
     | Some i =>
         match testNames r !! i with
         | Some n => String.eqb (name currentTest) n
         | None => false
         end
     end
  then
    if String.eqb labelName "issue" then
      addLink (jiraUrl r ++ value) value ISSUE currentTest
    else if String.eqb labelName "tms" then
      addLink (tmsUrl r ++ value) value TMS currentTest
    else if String.eqb labelName "tag" || String.eqb labelName "tags" then
      addLabel LabelName.TAG value currentTest
    else if String.eqb labelName "milestone" then
      addLabel "epic" value (addLabel labelName value currentTest)
    else
      addLabel labelName value currentTest
  else currentTest.

(** [value instanceof String]: a string value is not an object, an array is
    not a [String]. *)
Definition instanceof_String (value : PragmaValue) : bool :=
  match value with
  | PString _ => false
  | PArray _ => false
  end.

(** [value.includes(',')] and [value.split(',')] *)
Definition includes_comma (value : PragmaValue) : bool :=
  match value with
  | PString s => Js.includes s ","
  | PArray vs => existsb (String.eqb ",") vs
  end.

Definition split_comma (value : PragmaValue) : PragmaValue :=
  match value with
  | PString s => PArray (Js.split "," s)
  | PArray vs => PArray vs
  end.

Definition setAllureReportPragmas (currentTest : AllureTest)
    (pragmas : list (string * PragmaValue)) : AllureTest :=
  fold_left
    (fun t '(pragma, value) =>
       let value :=
         if instanceof_String value && includes_comma value
         then split_comma value else value in
       match value with
       | PArray vs => fold_left (fun t v => setAllureLabelsAndLinks t pragma v None) vs t
       | PString v => setAllureLabelsAndLinks t pragma v None
       end)
    pragmas currentTest.

(** [Array.from(new Set(labels))]: one entry for each object, in the order
    of their first occurrence. *)
Fixpoint distinct (seen : list nat) (ls : list (Ref Labels)) : list (Ref Labels) :=
  match ls with
  | [] => []
  | l :: ls' =>
      if existsb (Nat.eqb (address l)) seen then distinct seen ls'
      else l :: distinct (address l :: seen) ls'
  end.

Definition attachLabelsInConcurrent (currentTest : AllureTest) (ls : list (Ref Labels))
  : AllureTest :=
  fold_left
    (fun t l =>
       setAllureLabelsAndLinks t (label_name (target l)) (label_value (target l))
                               (label_index (target l)))
    (distinct [] ls) currentTest.

End WithReporter.

Section WithEnvironment.
Context (env : Environment).

(** [addSuiteLabelsToTestCase]: [suites.pop()] takes the last of the
    segments after the first, if there is one. *)
Definition addSuiteLabelsToTestCase (currentTest : AllureTest) (testPath : string)
  : AllureTest :=
  let isWindows := String.eqb (os_type env) "Windows_NT" in
  let pathDelimiter := if isWindows then Js.backslash else "/"%char in
  let pathsArray := Js.split pathDelimiter testPath in
  let parentSuite := head pathsArray in
  let suites := tail pathsArray in
  let subSuite := last suites in
  let suites := removelast suites in
  let currentTest :=
    if Js.truthy parentSuite
    then addLabel LabelName.PACKAGE (Js.or_empty parentSuite)
           (addLabel LabelName.PARENT_SUITE (Js.or_empty parentSuite) currentTest)
    else currentTest in
  let currentTest :=
    if 0 <? length suites
    then addLabel LabelName.SUITE (Js.join " > " suites) currentTest
    else currentTest in
  if Js.truthy subSuite
  then addLabel LabelName.SUB_SUITE (Js.or_empty subSuite) currentTest
  else currentTest.

(** [extractCodeDetails]: the comments, the pragmas and the formatted code
    (the only element of the array [code]). *)
Definition extractCodeDetails (serializedTestCode : string)
  : string * list (string * PragmaValue) * string :=
  let docblock := Text.extractDocBlock serializedTestCode in
  let '(comments, pragmas) := parseWithComments env docblock in
  let code := Text.split_expect (Js.replace serializedTestCode docblock "") in
  let check := if Js.includes (Js.or_empty (head code)) "wait_for_" then "" else Js.nl in
  let code := Js.join check code in
  (comments, pragmas, prettier_format env code).

(** *** Suites *)

Definition startSuite (suiteName : option string) (tests : option (list TestEntry))
    (r : AllureReporter) : AllureReporter :=
  let n := default "Global" suiteName in
  let r :=
    match currentSuite r with
    | Some scope =>
        let '(suite, scope, rt) := group_startGroup (host env) n scope (allureRuntime r) in
        pushSuite suite (set_allureRuntime rt (set_suites (set_top scope (suites r)) r))
    | None =>
        let '(suite, rt) := new_group (host env) n (allureRuntime r) in
        pushSuite suite (set_allureRuntime rt r)
    end in
  match tests with
  | Some ts => set_testNames (testNames r ++ map test_name ts) r
  | None => r
  end.

Definition startTestFile (suiteName : option string) (r : AllureReporter) : AllureReporter :=
  startSuite suiteName None r.

(** [for (const x of xs) x.end()]: every element, in index order. *)
Fixpoint for_each {A} (f : A -> AllureRuntime -> A * AllureRuntime) (xs : list A)
    (rt : AllureRuntime) : list A * AllureRuntime :=
  match xs with
  | [] => ([], rt)
  | x :: xs' =>
      let '(x, rt) := f x rt in
      let '(xs', rt) := for_each f xs' rt in
      (x :: xs', rt)
  end.

Definition endSuite (r : AllureReporter) : Outcome :=
  match currentSuite r with
  | None => Throws (Error "endSuite called while no suite is running") r
  | Some suite =>
      let '(steps, rt) := for_each (endStep (host env)) (steps r) (allureRuntime r) in
      let '(tests, rt) := for_each (endTest (host env)) (tests r) rt in
      let rt := endGroup suite rt in
      Returns (popSuite (set_allureRuntime rt (set_tests tests (set_steps steps r))))
  end.

(** [for (const _ of this.suites) this.endSuite()]: the iterator holds an
    index [i] and stops as soon as [i] is not below the length the array has
    at that time.  [n] bounds the number of rounds; the initial length is
    enough, since the array never grows. *)
Fixpoint endTestFile_from (n i : nat) (r : AllureReporter) : Outcome :=
  match n with
  | O => Returns r
  | S n' =>
      if i <? length (suites r)
      then and_then (endSuite r) (endTestFile_from n' (S i))
      else Returns r
  end.

Definition endTestFile (r : AllureReporter) : Outcome :=
  endTestFile_from (length (suites r)) 0 r.

(** *** Hooks *)

Definition startHook (type : string) (r : AllureReporter) : AllureReporter :=
  let r :=
    match currentSuite r with
    | Some suite =>
        if Js.startsWith type "before" then
          let '(a, suite, rt) := addBefore suite (allureRuntime r) in
          set_currentExecutable (Some a)
            (set_allureRuntime rt (set_suites (set_top suite (suites r)) r))
        else r
    | None => r
    end in
  match currentSuite r with
  | Some suite =>
      if Js.startsWith type "after" then
        let '(a, suite, rt) := addAfter suite (allureRuntime r) in
        set_currentExecutable (Some a)
          (set_allureRuntime rt (set_suites (set_top suite (suites r)) r))
      else r
  | None => r
  end.

Definition resolve (st : Status) (d : option StatusDetails) (f : Fixture) : Fixture :=
  mkFixture (Some st) (default (fx_statusDetails f) d) FINISHED.

Definition endHook (error : Thrown) (r : AllureReporter) : Outcome :=
  match currentExecutable r with
  | None => Throws (Error "endHook called while no executable is running") r
  | Some a =>
      if is_truthy error then
        match handleError error with
        | Raise e => Throws e r
        | Ok (status, message, trace) =>
            Returns (set_allureRuntime
                       (update_fixture a
                          (resolve status (Some (mkDetails (Some message) (Some trace))))
                          (allureRuntime r)) r)
        end
      else
        Returns (set_allureRuntime
                   (update_fixture a (resolve PASSED None) (allureRuntime r)) r)
  end.

(** *** Tests *)

Definition startTestCase (test : TestEntry) (state : State) (testPath : string)
    (r : AllureReporter) : Outcome :=
  match currentSuite r with
  | None => Throws (Error "startTestCase called while no suite is running") r
  | Some suite =>
      let '(currentTest, suite, rt) :=
        group_startTest (host env) (test_name test) suite (allureRuntime r) in
      let r := set_allureRuntime rt (set_suites (set_top suite (suites r)) r) in
      let currentTest := set_fullName (test_name test) currentTest in
      let currentTest :=
        set_historyId (MD5.md5_hex (testPath ++ "." ++ test_name test)) currentTest in
      let currentTest := set_stage RUNNING currentTest in
      let currentTest :=
        if addCodeInReport r then
          match fn test with
          | Some serializedTestCode =>
              let '(comments, pragmas, code) := extractCodeDetails serializedTestCode in
              let currentTest := setAllureReportPragmas r currentTest pragmas in
              set_description
                (comments ++ Js.nl ++ "### Test" ++ Js.nl ++ "```typescript" ++ Js.nl
                 ++ code ++ Js.nl ++ "```" ++ Js.nl)
                currentTest
          | None =>
              set_description ("### Test" ++ Js.nl ++ "Code is not available." ++ Js.nl)
                              currentTest
          end
        else currentTest in
      let currentTest :=
        if Js.truthy (JEST_WORKER_ID state)
        then addLabel LabelName.THREAD (Js.or_empty (JEST_WORKER_ID state)) currentTest
        else currentTest in
      let currentTest := addSuiteLabelsToTestCase currentTest testPath in
      Returns (pushTest currentTest r)
  end.

Definition passTestCase (r : AllureReporter) : Outcome :=
  match currentTest r with
  | None => Throws (Error "passTestCase called while no test is running") r
  | Some t =>
      let t := attachLabelsInConcurrent r t (labels r) in
      Returns (set_tests (set_top (set_status PASSED t) (tests r)) r)
  end.

Definition pendingTestCase (test : TestEntry) (r : AllureReporter) : Outcome :=
  match currentTest r with
  | None => Throws (Error "pendingTestCase called while no test is running") r
  | Some t =>
      let t := attachLabelsInConcurrent r t (labels r) in
      let t := set_status SKIPPED t in
      let t :=
        set_statusDetails
          (mkDetails
             (Some ("Test is marked: " ++ Js.dquote ++ Js.to_text (mode test) ++ Js.dquote)%string)
             None) t in
      Returns (set_tests (set_top t (tests r)) r)
  end.

Definition failTestCase (error : Thrown) (r : AllureReporter) : Outcome :=
  match currentTest r with
  | None => Throws (Error "failTestCase called while no test is running") r
  | Some t =>
      let t := attachLabelsInConcurrent r t (labels r) in
      let r := set_tests (set_top t (tests r)) r in
      let latestStatus := status t in
      let isBrokenTest :=
        bool_decide (latestStatus = Some BROKEN) && negb (bool_decide (stage t = RUNNING)) in
      if bool_decide (latestStatus = Some FAILED) || isBrokenTest then Returns r
      else
        match handleError error with
        | Raise e => Throws e r
        | Ok (status, message, trace) =>
            let t := set_status status t in
            let t := set_statusDetails (mkDetails (Some message) (Some trace)) t in
            Returns (set_tests (set_top t (tests r)) r)
        end
  end.

Definition endTest (r : AllureReporter) : Outcome :=
  match currentTest r with
  | None => Throws (Error "endTest called while no test is running") r
  | Some t =>
      let t := set_stage FINISHED t in
      let '(t, rt) := Sink.endTest (host env) t (allureRuntime r) in
      Returns (popTest (set_allureRuntime rt (set_tests (set_top t (tests r)) r)))
  end.

End WithEnvironment.

End Reporter.

(** ** The event adapter

    [handleTestEvent] of [AllureBaseEnvironment], after the handler of the
    base environment has run: the reporter calls made for each event of
    [jest-circus]. *)

Module Adapter.

Import Sink Jest Reporter.

Inductive Event : Type :=
| setup
| add_hook
| add_test
| run_start
| test_skip (test : TestEntry)
| test_todo (test : TestEntry)
| start_describe_definition
| finish_describe_definition
| run_describe_start (describe_name : string) (describe_tests : option (list TestEntry))
| test_start
| hook_start (type : string)
| hook_success
| hook_failure (error asyncError : Thrown)
| test_fn_start (test : TestEntry)
| test_fn_success (test : TestEntry)
| test_fn_failure (test : TestEntry)
| test_done (test : TestEntry)
| run_describe_finish
| run_finish
| teardown
| error
| unhandled.

Record AllureBaseEnvironment : Type := mkAdapter {
  reporter : AllureReporter;
  testPath : string;
  testFileName : string
}.

(** [initializeTestPath]: the path of the test file without the configured
    prefix ([testEnvironmentOptions.testPath] if it is a string, [rootDir]
    otherwise) and without a leading slash. *)
Definition initializeTestPath (optionsTestPath : option string) (rootDir : string)
    (contextTestPath : option string) : string :=
  let testPath := default EmptyString contextTestPath in
  let testPath :=
    match optionsTestPath with
    | Some prefix => Js.replace testPath prefix ""
    | None => Js.replace testPath rootDir ""
    end in
  if Js.startsWith testPath "/" then Js.slice_from 1 testPath else testPath.

Section WithEnvironment.
Context (env : Environment).

Definition handleTestEvent (event : Event) (state : State) (this : AllureBaseEnvironment)
  : Outcome :=
  let r := reporter this in
  match event with
  | run_start => Returns (startTestFile env (Some (testFileName this)) r)
  | test_skip test | test_todo test =>
      and_then (startTestCase env test state (testPath this) r) (pendingTestCase test)
  | run_describe_start n ts => Returns (startSuite env (Some n) ts r)
  | hook_start type => Returns (startHook type r)
  | hook_success => endHook Nothing r
  | hook_failure e asyncError =>
      endHook (match e with Nothing => asyncError | _ => e end) r
  | test_fn_start test => startTestCase env test state (testPath this) r
  | test_fn_success test =>
      if 0 <? length (errors test)
      then failTestCase (hd Nothing (errors test)) r
      else passTestCase r
  | test_fn_failure test => failTestCase (hd Nothing (errors test)) r
  | test_done test =>
      and_then
        (if 0 <? length (errors test)
         then failTestCase (hd Nothing (errors test)) r
         else Returns r)
        (endTest env)
  | run_describe_finish => endSuite env r
  | run_finish => endTestFile env r
  | setup | add_hook | add_test | start_describe_definition
  | finish_describe_definition | test_start | teardown | error | unhandled =>
      Returns r
  end.

End WithEnvironment.

End Adapter.

(** ** Statements of the specification and sample inputs *)

Module Spec.

Import Sink Jest Reporter.

(** The calls that open something. *)
Inductive StartCall : Type :=
| StartSuite (suiteName : option string) (tests : option (list TestEntry))
| StartTestCase (test : TestEntry) (state : State) (testPath : string)
| StartHook (type : string).

Definition call (env : Environment) (c : StartCall) (r : AllureReporter) : Outcome :=
  match c with
  | StartSuite n ts => Returns (startSuite env n ts r)
  | StartTestCase t st p => startTestCase env t st p r
  | StartHook ty => Returns (startHook ty r)
  end.

Fixpoint calls (env : Environment) (cs : list StartCall) (r : AllureReporter) : Outcome :=
  match cs with
  | [] => Returns r
  | c :: cs' => and_then (call env c r) (calls env cs')
  end.

(** What calls have opened between [r] and [r1]: the tests [new] on top of
    the test stack and [hooks] fixtures at the end of the store; the steps
    and the files written are the same. *)
Definition opened_since (r r1 : AllureReporter) (new : list AllureTest) (hooks : nat)
  : Prop :=
  tests r1 = tests r ++ new
  /\ Forall (fun t => stop t = None) new
  /\ steps r1 = steps r
  /\ fixtures (allureRuntime r1)
     = fixtures (allureRuntime r) ++ replicate hooks new_fixture
  /\ files (allureRuntime r1) = files (allureRuntime r).

(** A step and a test closed at the [i]-th reading of the clock after the
    first [k]. *)
Definition stopped_step (h : Host) (k i : nat) (s : AllureStep) : AllureStep :=
  mkStep (step_name s) (step_status s) (step_stage s) (step_start s)
         (Some (Date_now h (k + i))).

Definition stopped_test (h : Host) (k i : nat) (t : AllureTest) : AllureTest :=
  set_stop t (Date_now h (k + i)).

(** Balanced nesting as the specification words it: after the calls and
    [endSuite], every test the calls left open has been written in a closed
    or finished state, and every hook opened by the calls is finished. *)
Definition balanced_nesting_as_specified (env : Environment) (cs : list StartCall)
    (r : AllureReporter) : Prop :=
  forall r1 r2,
    calls env cs r = Returns r1 ->
    endSuite env r1 = Returns r2 ->
    (forall t, t ∈ tests r1 ->
       exists t', ResultFile t' ∈ files (allureRuntime r2)
                  /\ uuid t' = uuid t
                  /\ (is_Some (stop t') \/ stage t' = FINISHED))
    /\ (forall a f,
          length (fixtures (allureRuntime r)) <= a ->
          fixtures (allureRuntime r2) !! a = Some f ->
          fx_stage f = FINISHED).

(** Several [failTestCase] calls in a row. *)
Fixpoint failTestCases (errors : list Thrown) (r : AllureReporter) : Outcome :=
  match errors with
  | [] => Returns r
  | e :: errors' => and_then (failTestCase e r) (failTestCases errors')
  end.

(** The error of the specification's [InvalidState]: an [Error] raised with
    the reporter left as it was. *)
Definition InvalidState (o : Outcome) (r : AllureReporter) : Prop :=
  exists message, o = Throws (Error message) r.

(** Everything in a test but its labels and links. *)
Definition core (t : AllureTest) :=
  (uuid t, historyId t, name t, fullName t, description t,
   status t, statusDetails t, stage t, start t, stop t).

(** The gate of the specification: a label with an ordinal index applies
    to a test whose name is the entry of [testNames] at that index. *)
Definition applies (r : AllureReporter) (t : AllureTest) (l : Ref Labels) : bool :=
  match label_index (target l) with
  | None => true
  | Some i =>
      match testNames r !! i with
      | Some n => String.eqb (name t) n
      | None => false
      end
  end.

(** A label attached without regard to its index. *)
Definition attach (r : AllureReporter) (t : AllureTest) (l : Ref Labels) : AllureTest :=
  setAllureLabelsAndLinks r t (label_name (target l)) (label_value (target l)) None.

(** Label gating as the specification words it: with labels of index 0 and
    1 and tests named by the entries 0 and 1 of the table, the test of entry
    0 gets the label of index 0 only. *)
Definition gating_as_specified (r : AllureReporter) (t : AllureTest)
    (l0 l1 : Ref Labels) : Prop :=
  label_index (target l0) = Some 0 ->
  label_index (target l1) = Some 1 ->
  testNames r !! 0 = Some (name t) ->
  is_Some (testNames r !! 1) ->
  attachLabelsInConcurrent r t [l0; l1] = attach r t l0.

(** The delimiter [testPath] is split at. *)
Definition pathDelimiter (env : Environment) : ascii :=
  if String.eqb (os_type env) "Windows_NT" then Js.backslash else "/"%char.

(** The segments between the first and the last. *)
Definition middle (segments : list string) : list string := removelast (tail segments).

(** The label [n] with value [v], if [v] is there and not empty. *)
Definition label_if_nonempty (n : string) (v : option string) : list Label :=
  match v with
  | Some (String c s) => [mkLabel n (String c s)]
  | _ => []
  end.

(** The suite labels as the specification words them: the first segment as
    parent suite and package, the last segment as sub-suite, the middle
    segments, if any, joined as suite. *)
Definition suite_labels_as_specified (env : Environment) (t : AllureTest)
    (testPath : string) : Prop :=
  let segments := Js.split (pathDelimiter env) testPath in
  let ls := Sink.labels (addSuiteLabelsToTestCase env t testPath) in
  (forall s, head segments = Some s ->
     mkLabel LabelName.PARENT_SUITE s ∈ ls /\ mkLabel LabelName.PACKAGE s ∈ ls)
  /\ (forall s, last segments = Some s -> mkLabel LabelName.SUB_SUITE s ∈ ls)
  /\ (middle segments <> [] ->
      mkLabel LabelName.SUITE (Js.join " > " (middle segments)) ∈ ls).

(** A reporter whose current executable, if any, is in the store. *)
Definition executable_stored (r : AllureReporter) : Prop :=
  forall a, currentExecutable r = Some a -> a < length (fixtures (allureRuntime r)).

(** Events handled one after the other by the same environment, up to the
    first exception. *)
Fixpoint handle_all (env : Environment) (state : State) (events : list Adapter.Event)
    (this : Adapter.AllureBaseEnvironment) : Outcome :=
  match events with
  | [] => Returns (Adapter.reporter this)
  | e :: events' =>
      and_then (Adapter.handleTestEvent env e state this)
        (fun r =>
           handle_all env state events'
             (Adapter.mkAdapter r (Adapter.testPath this) (Adapter.testFileName this)))
  end.

(** The events of one test that passes. *)
Definition passing_test (t : TestEntry) : list Adapter.Event :=
  [Adapter.test_fn_start t; Adapter.test_fn_success t; Adapter.test_done t].

(** The labels and the links one annotation stands for. *)
Definition label_entries (n v : string) : list Label :=
  if String.eqb n "issue" || String.eqb n "tms" then []
  else if String.eqb n "tag" || String.eqb n "tags" then [mkLabel LabelName.TAG v]
  else if String.eqb n "milestone" then [mkLabel n v; mkLabel "epic" v]
  else [mkLabel n v].

Definition link_entries (r : AllureReporter) (n v : string) : list Link :=
  if String.eqb n "issue" then [mkLink (jiraUrl r ++ v) v ISSUE]
  else if String.eqb n "tms" then [mkLink (tmsUrl r ++ v) v TMS]
  else [].

(** The labels that pass the gate for a test, each object once. *)
Definition admitted (r : AllureReporter) (t : AllureTest) (ls : list (Ref Labels))
  : list (Ref Labels) :=
  List.filter (applies r t) (distinct [] ls).

Definition is_hex_digit (c : ascii) : bool :=
  existsb (Ascii.eqb c) (list_ascii_of_string "0123456789abcdef").

(** The characters that start an escape sequence. *)
Definition is_escape (c : ascii) : bool :=
  Ascii.eqb c (Js.chr 27) || Ascii.eqb c (Js.chr 155).

(** How a reporter can differ from an earlier one: the table of test names
    and the files written are prolonged, the store does not shrink, the
    configuration and the accumulated labels are the same, and the current
    executable is the earlier one or one that is in the store. *)
Definition grown_from (r r' : AllureReporter) : Prop :=
  testNames r `prefix_of` testNames r'
  /\ files (allureRuntime r) `prefix_of` files (allureRuntime r')
  /\ length (fixtures (allureRuntime r)) <= length (fixtures (allureRuntime r'))
  /\ jiraUrl r' = jiraUrl r
  /\ tmsUrl r' = tmsUrl r
  /\ addCodeInReport r' = addCodeInReport r
  /\ Reporter.labels r' = Reporter.labels r
  /\ (currentExecutable r' = currentExecutable r
      \/ exists a, currentExecutable r' = Some a
                   /\ a < length (fixtures (allureRuntime r'))).

(** A position further on in the same text. *)
Definition further (z z' : Regex.position) : Prop :=
  rev z'.1 ++ z'.2 = rev z.1 ++ z.2 /\ length z'.2 <= length z.2.

(** Every address of a list is in the store. *)
Definition addresses_stored (rt : AllureRuntime) (as_ : list nat) : Prop :=
  Forall (fun a => a < length (fixtures rt)) as_.

End Spec.

Module Sample.

Import Sink Jest Reporter.

Definition host : Host :=
  mkHost (fun k => Z.of_nat (1000 + k)) (fun k => String (Js.chr (97 + k)) EmptyString).

(** An environment whose docblock parser finds no pragma. *)
Definition env : Environment :=
  mkEnvironment host "Linux" (fun docblock => (docblock, [])) (fun code => code).

(** Another machine: another clock, other identifiers, another system. *)
Definition other_env : Environment :=
  mkEnvironment
    (mkHost (fun k => Z.of_nat (77 * k)) (fun k => String (Js.chr (65 + k)) "-id"))
    "Windows_NT" (fun docblock => ("", [])) (fun code => code).

Definition options : Options := mkOptions (mkRuntime [] [] 0 0) None None [] None.

Definition fresh_reporter : AllureReporter := new options.

Definition entry (n : string) : TestEntry := mkEntry n None None [].

(** Two labels recorded for the tests of index 0 and 1. *)
Definition label0 : Ref Labels := mkRef 0 (mkLabels "feature" "login" (Some 0)).
Definition label1 : Ref Labels := mkRef 1 (mkLabels "feature" "logout" (Some 1)).

(** A reporter whose suite has the two tests [n0] and [n1], with the first
    of them running and both labels accumulated. *)
Definition two_tests (n0 n1 : string) : AllureReporter :=
  set_labels [label0; label1]
    (state_of (startTestCase env (entry n0) (mkState None) "a/b/c.spec.ts"
                 (startSuite env (Some "s") (Some [entry n0; entry n1]) fresh_reporter))).

(** A test as [startTest] returns it, without labels. *)
Definition blank_test : AllureTest := (new_test host "adds" (mkRuntime [] [] 0 0)).1.

Definition assertion_error : Thrown :=
  ErrorObject (Some "Error") (Some "expect(received).toBe(expected)") None
    (Some (Text ("Expected: 1" ++ Js.nl ++ "Received: 2" ++ Js.nl ++ "extra line"))).

(** A reporter with one suite and one running test, and the same after the
    test has failed an assertion. *)
Definition running : AllureReporter :=
  state_of (startTestCase env (entry "adds") (mkState None) "a/b/c.spec.ts"
              (startSuite env (Some "s") None fresh_reporter)).

Definition failed : AllureReporter := state_of (failTestCase assertion_error running).

(** The first of the two tests after it has failed an assertion. *)
Definition failed_with_labels : AllureReporter :=
  state_of (failTestCase assertion_error (two_tests "logs in" "logs out")).

End Sample.

Import Sink Jest Reporter Spec.

(** * Properties *)

(** ** The model on small inputs *)

Example md5_of_abc : MD5.md5_hex "abc" = "900150983cd24fb0d6963f7d28e17f72".
Proof. vm_compute. reflexivity. Qed.

Example md5_of_two_blocks :
  MD5.md5_hex (string_of_list_ascii (repeat "x"%char 56))
  = "668a72d5ba17f08e62dabcafad6db14b".
Proof. vm_compute. reflexivity. Qed.

Example strip_ansi_colours :
  Text.strip_ansi (String (Js.chr 27) "[31mred" ++ String (Js.chr 27) "[0m plain")
  = "red plain".
Proof. vm_compute. reflexivity. Qed.

Example extractDocBlock_second_line :
  Text.extractDocBlock ("() => {" ++ Js.nl ++ "  /** @issue JIRA-1 */" ++ Js.nl ++ "}")
  = "/** @issue JIRA-1 */".
Proof. vm_compute. reflexivity. Qed.

Example extractDocBlock_not_at_line_start :
  Text.extractDocBlock "() => { /** @issue JIRA-1 */ }" = "".
Proof. vm_compute. reflexivity. Qed.

Example split_expect_pieces :
  Text.split_expect "f(); expect(1); expect(2)" = ["f(); "; "expect(1); expect(2)"; ""].
Proof. vm_compute. reflexivity. Qed.

Example handleError_generic :
  handleError
    (ErrorObject (Some "TypeError") None (Some ("TypeError: boom" ++ Js.nl ++ " at x")%string)
       None)
  = Ok (BROKEN, "TypeError", (": boom" ++ Js.nl ++ " at x")%string).
Proof. vm_compute. reflexivity. Qed.

Example handleError_thrown_string :
  handleError (ErrorString "boom") = Ok (BROKEN, "Error. Expand for more details.", "boom").
Proof. vm_compute. reflexivity. Qed.

Example handleError_without_trace :
  handleError (ErrorObject (Some "TypeError") None None None) = Raise TypeError.
Proof. vm_compute. reflexivity. Qed.

Example handleError_nested_arrays :
  handleError
    (ErrorArray [ErrorArray []; ErrorArray [ErrorObject None (Some "late") (Some "at y") None]])
  = Ok (BROKEN, "at y", "No stack trace provided").
Proof. vm_compute. reflexivity. Qed.

Example initializeTestPath_at_root :
  Adapter.initializeTestPath None "/repo" (Some "/repo/c.spec.ts") = "c.spec.ts".
Proof. vm_compute. reflexivity. Qed.

(** A pragma that occurs twice arrives as an array and gives two links. *)
Example repeated_issue_pragma (r : AllureReporter) (t : AllureTest) :
  links (setAllureReportPragmas r t [("issue", PArray ["JIRA-1"; "JIRA-2"])])
  = links t ++ [ mkLink (jiraUrl r ++ "JIRA-1") "JIRA-1" ISSUE;
                 mkLink (jiraUrl r ++ "JIRA-2") "JIRA-2" ISSUE ].
Proof. cbn. now rewrite <- app_assoc. Qed.

(** ** Small facts about stacks *)

Lemma last_set_top {A} (x : A) (l : list A) : last (set_top x l) = Some x.
Proof. unfold set_top. apply last_snoc. Qed.

Lemma set_top_snoc {A} (x y : A) (l : list A) : set_top x (l ++ [y]) = l ++ [x].
Proof. unfold set_top. now rewrite removelast_last. Qed.

Lemma length_set_top {A} (x y : A) (l : list A) :
  last l = Some y -> length (set_top x l) = length l.
Proof.
  intros [l' ->]%last_Some. rewrite set_top_snoc, !length_app. reflexivity.
Qed.

Lemma last_None_nil {A} (l : list A) : last l = None -> l = [].
Proof.
  destruct l as [|x l] using rev_ind; [reflexivity|].
  rewrite last_snoc. discriminate.
Qed.

(** ** Misuse of the state machine *)



(** ** The error classifier *)

(** C7: an error that carries a matcher result rendered as the three lines
    [Expected: 1], [Received: 2], [extra line], and no stack, is classified
    as [FAILED], with the first two lines as message and [extra line] as
    trace. *)
Theorem matcher_error_classified (name message stack : option string)
    (m : MatcherMessage) :
  rendered m = ("Expected: 1" ++ Js.nl ++ "Received: 2" ++ Js.nl ++ "extra line")%string ->
  Js.truthy stack = false ->
  exists trace,
    handleError (ErrorObject name message stack (Some m))
    = Ok (FAILED, ("Expected: 1" ++ Js.nl ++ "Received: 2")%string, trace)
    /\ trace = "extra line"
    /\ Js.includes trace "extra line" = true.
Proof.
  intros Hm Hstack. exists "extra line".
  split; [|split; reflexivity].
  destruct m as [s|s]; simpl in Hm; subst s;
    destruct stack as [[|c s]|]; try discriminate Hstack; reflexivity.
Qed.

Lemma matcher_error_classified_witness :
  exists trace,
    handleError
      (ErrorObject (Some "Error") (Some "expect(received).toBe(expected)") None
         (Some (Thunk ("Expected: 1" ++ Js.nl ++ "Received: 2" ++ Js.nl ++ "extra line"))))
    = Ok (FAILED, ("Expected: 1" ++ Js.nl ++ "Received: 2")%string, trace)
    /\ trace = "extra line"
    /\ Js.includes trace "extra line" = true.
Proof.
  apply (matcher_error_classified (Some "Error") (Some "expect(received).toBe(expected)")
           None (Thunk ("Expected: 1" ++ Js.nl ++ "Received: 2" ++ Js.nl ++ "extra line")));
    reflexivity.
Defined.

(** ** Labels and links leave the rest of a test alone *)

Lemma core_fold_left {B} (f : AllureTest -> B -> AllureTest) :
  (forall t b, core (f t b) = core t) ->
  forall bs t, core (fold_left f bs t) = core t.
Proof.
  intros Hf bs. induction bs as [|b bs IH]; intros t; simpl; [reflexivity|].
  rewrite IH. apply Hf.
Qed.

Lemma core_setAllureLabelsAndLinks r t n v i :
  core (setAllureLabelsAndLinks r t n v i) = core t.
Proof.
  unfold setAllureLabelsAndLinks.
  repeat match goal with
         | |- context [if ?b then _ else _] => destruct b
         end; reflexivity.
Qed.

Lemma core_attachLabelsInConcurrent r t ls :
  core (attachLabelsInConcurrent r t ls) = core t.
Proof.
  unfold attachLabelsInConcurrent. apply core_fold_left.
  intros; apply core_setAllureLabelsAndLinks.
Qed.

Lemma core_setAllureReportPragmas r t ps :
  core (setAllureReportPragmas r t ps) = core t.
Proof.
  unfold setAllureReportPragmas. apply core_fold_left.
  intros t' [pragma value].
  destruct (if instanceof_String value && includes_comma value
            then split_comma value else value) as [v|vs].
  - apply core_setAllureLabelsAndLinks.
  - apply core_fold_left. intros; apply core_setAllureLabelsAndLinks.
Qed.

Lemma core_addSuiteLabelsToTestCase env t p :
  core (addSuiteLabelsToTestCase env t p) = core t.
Proof.
  unfold addSuiteLabelsToTestCase.
  repeat match goal with
         | |- context [if ?b then _ else _] => destruct b
         end; reflexivity.
Qed.

Ltac core_fields H :=
  unfold core in H; injection H as ? ? ? ? ? ? ? ? ? ?.

(** ** No status downgrade *)

Lemma failTestCase_settled (error : Thrown) (r : AllureReporter) (t : AllureTest) :
  currentTest r = Some t ->
  status t = Some FAILED \/ (status t = Some BROKEN /\ stage t <> RUNNING) ->
  exists r' t',
    failTestCase error r = Returns r'
    /\ currentTest r' = Some t'
    /\ core t' = core t.
Proof.
  intros Hcur Hst. unfold failTestCase. rewrite Hcur.
  pose proof (core_attachLabelsInConcurrent r t (Reporter.labels r)) as Hcore.
  set (t1 := attachLabelsInConcurrent r t (Reporter.labels r)) in *.
  assert (Hs : status t1 = status t) by (core_fields Hcore; assumption).
  assert (Hg : stage t1 = stage t) by (core_fields Hcore; assumption).
  exists (set_tests (set_top t1 (tests r)) r), t1.
  split; [|split; [apply last_set_top | exact Hcore]].
  rewrite Hs, Hg.
  destruct Hst as [-> | [-> Hrun]].
  - reflexivity.
  - rewrite (bool_decide_eq_false_2 _ Hrun). reflexivity.
Qed.

(** C3: once the current test is [FAILED], or [BROKEN] with a stage other
    than [RUNNING], every later [failTestCase] returns and leaves its status
    and status details as they were. *)
Theorem failTestCase_keeps_failure (errors : list Thrown) (r : AllureReporter)
    (t : AllureTest) :
  currentTest r = Some t ->
  status t = Some FAILED \/ (status t = Some BROKEN /\ stage t <> RUNNING) ->
  exists r' t',
    failTestCases errors r = Returns r'
    /\ currentTest r' = Some t'
    /\ status t' = status t
    /\ statusDetails t' = statusDetails t.
Proof.
  revert r t. induction errors as [|e errors IH]; intros r t Hcur Hst; simpl.
  - exists r, t. auto.
  - destruct (failTestCase_settled e r t Hcur Hst) as (r1 & t1 & -> & Hcur1 & Hcore).
    simpl. core_fields Hcore.
    destruct (IH r1 t1 Hcur1) as (r' & t' & Hrun & Hcur' & Hs & Hd).
    { destruct Hst as [? | [? ?]]; [left | right]; [|split]; congruence. }
    exists r', t'. repeat split; congruence.
Qed.

Lemma failTestCase_keeps_failure_witness :
  exists t,
    currentTest Sample.failed = Some t
    /\ status t = Some FAILED
    /\ exists r' t',
         failTestCases [ErrorString "late"; Nothing] Sample.failed = Returns r'
         /\ currentTest r' = Some t'
         /\ status t' = status t
         /\ statusDetails t' = statusDetails t.
Proof.
  eexists. split; [vm_compute; reflexivity|]. split; [reflexivity|].
  apply failTestCase_keeps_failure; [reflexivity | left; reflexivity].
Defined.

(** ** Starting a test *)

Lemma historyId_core t t' : core t' = core t -> historyId t' = historyId t.
Proof. intros H. core_fields H. assumption. Qed.

Lemma stage_core t t' : core t' = core t -> stage t' = stage t.
Proof. intros H. core_fields H. assumption. Qed.

Lemma name_core t t' : core t' = core t -> name t' = name t.
Proof. intros H. core_fields H. assumption. Qed.

Lemma stop_core t t' : core t' = core t -> stop t' = stop t.
Proof. intros H. core_fields H. assumption. Qed.

(** With a suite open [startTestCase] returns: one test is pushed, with the
    digest as [historyId] and in stage [RUNNING]; the other stacks, the
    fixtures and the files are as before. *)
Lemma startTestCase_returns env test state testPath r suite :
  currentSuite r = Some suite ->
  exists t r',
    startTestCase env test state testPath r = Returns r'
    /\ tests r' = tests r ++ [t]
    /\ historyId t = MD5.md5_hex (testPath ++ "." ++ test_name test)
    /\ stage t = RUNNING
    /\ stop t = None
    /\ steps r' = steps r
    /\ length (suites r') = length (suites r)
    /\ currentExecutable r' = currentExecutable r
    /\ fixtures (allureRuntime r') = fixtures (allureRuntime r)
    /\ files (allureRuntime r') = files (allureRuntime r).
Proof.
  intros Hsuite. unfold startTestCase. rewrite Hsuite.
  cbv beta iota zeta delta [group_startTest new_test Sink.fresh now].
  eexists _, _. split; [reflexivity|]. split; [reflexivity|].
  split; [|split; [|split]].
  - rewrite (historyId_core _ _ (core_addSuiteLabelsToTestCase _ _ _)).
    repeat match goal with
           | |- context [if ?b then _ else _] => destruct b
           | |- context [match fn ?t with _ => _ end] => destruct (fn t)
           | |- context [extractCodeDetails ?e ?c] =>
               destruct (extractCodeDetails e c) as [[? ?] ?]
           end; cbn [historyId addLabel set_description];
      rewrite ?(historyId_core _ _ (core_setAllureReportPragmas _ _ _)); reflexivity.
  - rewrite (stage_core _ _ (core_addSuiteLabelsToTestCase _ _ _)).
    repeat match goal with
           | |- context [if ?b then _ else _] => destruct b
           | |- context [match fn ?t with _ => _ end] => destruct (fn t)
           | |- context [extractCodeDetails ?e ?c] =>
               destruct (extractCodeDetails e c) as [[? ?] ?]
           end; cbn [stage addLabel set_description];
      rewrite ?(stage_core _ _ (core_setAllureReportPragmas _ _ _)); reflexivity.
  - rewrite (stop_core _ _ (core_addSuiteLabelsToTestCase _ _ _)).
    repeat match goal with
           | |- context [if ?b then _ else _] => destruct b
           | |- context [match fn ?t with _ => _ end] => destruct (fn t)
           | |- context [extractCodeDetails ?e ?c] =>
               destruct (extractCodeDetails e c) as [[? ?] ?]
           end; cbn [stop addLabel set_description];
      rewrite ?(stop_core _ _ (core_setAllureReportPragmas _ _ _)); reflexivity.
  - cbn. repeat split; try reflexivity.
    eapply length_set_top, Hsuite.
Qed.



(** ** Annotations *)

Lemma links_addSuiteLabelsToTestCase env t p :
  links (addSuiteLabelsToTestCase env t p) = links t.
Proof.
  unfold addSuiteLabelsToTestCase.
  repeat match goal with
         | |- context [if ?b then _ else _] => destruct b
         end; reflexivity.
Qed.

(** C6, on the code: a test whose docblock carries the pragma [issue] with
    the value [JIRA-1,JIRA-2] is started with one issue link, whose URL is
    the base URL followed by the whole value; the value is not split. *)
Theorem comma_separated_issue_is_one_link (h : Host) (os : string)
    (format : string -> string) (comments : string) (rt : AllureRuntime)
    (base : string) (test_name source : string) (state : State) (testPath : string) :
  let env :=
    mkEnvironment h os (fun _ => (comments, [("issue", PString "JIRA-1,JIRA-2")])) format in
  let r := startSuite env None None (new (mkOptions rt (Some base) None [] None)) in
  exists r' t,
    startTestCase env (mkEntry test_name (Some source) None []) state testPath r
    = Returns r'
    /\ currentTest r' = Some t
    /\ links t = [mkLink (base ++ "JIRA-1,JIRA-2") "JIRA-1,JIRA-2" ISSUE].
Proof.
  intros env r. eexists _, _.
  split; [reflexivity|]. split; [apply last_snoc|].
  rewrite links_addSuiteLabelsToTestCase.
  destruct (Js.truthy (JEST_WORKER_ID state)); reflexivity.
Qed.

(** ** Suite labels *)

(** C8, as stated, fails for a path of one segment: the segment becomes the
    parent suite and the package, and there is no sub-suite label. *)
Lemma suite_labels_single_segment :
  ~ suite_labels_as_specified Sample.env Sample.blank_test "c.spec.ts".
Proof.
  intros (_ & Hlast & _).
  specialize (Hlast "c.spec.ts" eq_refl).
  apply list_elem_of_In in Hlast. vm_compute in Hlast.
  destruct Hlast as [H | [H | []]]; discriminate H.
Qed.

(** C8, amended: the labels added are, in this order, parent suite and
    package from a non-empty first segment, suite from the middle segments
    joined with [" > "] when there are at least three segments, and sub-suite
    from a non-empty last segment when there are at least two.  With [/] as
    delimiter the path [a/b/c.spec.ts] gives [a], [a], [b], [c.spec.ts]. *)
Theorem suite_labels (env : Environment) (t : AllureTest) (testPath : string) :
  let segments := Js.split (pathDelimiter env) testPath in
  Sink.labels (addSuiteLabelsToTestCase env t testPath)
  = Sink.labels t
    ++ label_if_nonempty LabelName.PARENT_SUITE (head segments)
    ++ label_if_nonempty LabelName.PACKAGE (head segments)
    ++ (if 3 <=? length segments
        then [mkLabel LabelName.SUITE (Js.join " > " (middle segments))] else [])
    ++ (if 2 <=? length segments
        then label_if_nonempty LabelName.SUB_SUITE (last segments) else [])
  /\ (os_type env <> "Windows_NT" ->
      Sink.labels (addSuiteLabelsToTestCase env t "a/b/c.spec.ts")
      = Sink.labels t
        ++ [ mkLabel LabelName.PARENT_SUITE "a"; mkLabel LabelName.PACKAGE "a";
             mkLabel LabelName.SUITE "b"; mkLabel LabelName.SUB_SUITE "c.spec.ts" ]).
Proof.
  split.
  - unfold addSuiteLabelsToTestCase, middle. fold (pathDelimiter env).
    destruct (Js.split (pathDelimiter env) testPath) as [|s1 rest].
    { cbn. now rewrite app_nil_r. }
    destruct rest as [|sN rest _] using rev_ind.
    { destruct s1; cbn; rewrite <- ?app_assoc; cbn; rewrite ?app_nil_r; reflexivity. }
    cbn [head tail]. rewrite removelast_last, last_snoc.
    change (s1 :: rest ++ [sN]) with ((s1 :: rest) ++ [sN]).
    rewrite last_snoc, length_app, (Nat.add_comm _ 1).
    destruct s1, sN, rest; cbn; rewrite <- ?app_assoc; cbn; rewrite ?app_nil_r;
      reflexivity.
  - intros Hos. apply String.eqb_neq in Hos.
    unfold addSuiteLabelsToTestCase. rewrite Hos. cbn.
    rewrite <- !app_assoc. reflexivity.
Qed.

Lemma suite_labels_witness :
  os_type Sample.env <> "Windows_NT"
  /\ Sink.labels (addSuiteLabelsToTestCase Sample.env Sample.blank_test "a/b/c.spec.ts")
     = Sink.labels Sample.blank_test
       ++ [ mkLabel LabelName.PARENT_SUITE "a"; mkLabel LabelName.PACKAGE "a";
            mkLabel LabelName.SUITE "b"; mkLabel LabelName.SUB_SUITE "c.spec.ts" ].
Proof.
  assert (Hos : os_type Sample.env <> "Windows_NT") by discriminate.
  split; [exact Hos|].
  exact (proj2 (suite_labels Sample.env Sample.blank_test "a/b/c.spec.ts") Hos).
Defined.

(** ** Label gating *)

Lemma setAllureLabelsAndLinks_gate r t (l : Ref Labels) :
  setAllureLabelsAndLinks r t (label_name (target l)) (label_value (target l))
    (label_index (target l))
  = if applies r t l then attach r t l else t.
Proof.
  unfold applies, attach, setAllureLabelsAndLinks.
  destruct (label_index (target l)) as [i|]; [|reflexivity].
  destruct (testNames r !! i) as [n|]; [|reflexivity].
  destruct (String.eqb (name t) n); reflexivity.
Qed.

Lemma applies_core r t t' l : core t' = core t -> applies r t' l = applies r t l.
Proof. intros H. unfold applies. now rewrite (name_core _ _ H). Qed.

Lemma fold_gate r t0 (ls : list (Ref Labels)) : forall t,
  core t = core t0 ->
  fold_left
    (fun t l =>
       setAllureLabelsAndLinks r t (label_name (target l)) (label_value (target l))
         (label_index (target l))) ls t
  = fold_left (attach r) (List.filter (applies r t0) ls) t.
Proof.
  induction ls as [|l ls IH]; intros t Hcore; simpl; [reflexivity|].
  rewrite setAllureLabelsAndLinks_gate, (applies_core r t0 t l Hcore).
  destruct (applies r t0 l); simpl; apply IH; [|exact Hcore].
  unfold attach. now rewrite core_setAllureLabelsAndLinks.
Qed.

Lemma attach_changes r t l : attach r t l <> t.
Proof.
  intros H.
  apply (f_equal (fun t => length (Sink.labels t) + length (links t))) in H.
  unfold attach, setAllureLabelsAndLinks in H.
  repeat match type of H with
         | context [if ?b then _ else _] => destruct b
         end; cbn in H; rewrite ?length_app in H; cbn in H; lia.
Qed.

(** C5, as stated, fails when the two tests have the same name: the test
    of entry 0 gets both labels. *)
Lemma gating_fails_for_equal_names :
  ~ gating_as_specified (Sample.two_tests "logs in" "logs in") 
      (default Sample.blank_test (currentTest (Sample.two_tests "logs in" "logs in")))
      Sample.label0 Sample.label1.
Proof.
  intros H.
  specialize (H eq_refl eq_refl eq_refl (ex_intro _ _ eq_refl)).
  apply (f_equal (fun t => length (Sink.labels t))) in H.
  vm_compute in H. discriminate H.
Qed.

(** C5, amended: the labels attached are those that pass the gate, each
    object once and in the order of accumulation; a single label is attached
    exactly when it passes the gate; and with labels of index 0 and 1 and
    two different names in the entries 0 and 1 of the table, the test named
    by entry 0 gets the label of index 0 only. *)
Theorem label_gating (r : AllureReporter) (t : AllureTest) (ls : list (Ref Labels)) :
  attachLabelsInConcurrent r t ls
  = fold_left (attach r) (List.filter (applies r t) (distinct [] ls)) t
  /\ (forall l, attachLabelsInConcurrent r t [l] <> t <-> applies r t l = true)
  /\ (forall l0 l1 n1,
        label_index (target l0) = Some 0 ->
        label_index (target l1) = Some 1 ->
        testNames r !! 0 = Some (name t) ->
        testNames r !! 1 = Some n1 ->
        n1 <> name t ->
        attachLabelsInConcurrent r t [l0; l1] = attach r t l0
        /\ attach r t l0 <> t).
Proof.
  assert (Hall : forall ls,
             attachLabelsInConcurrent r t ls
             = fold_left (attach r) (List.filter (applies r t) (distinct [] ls)) t).
  { intros ls'. unfold attachLabelsInConcurrent. now apply fold_gate. }
  split; [apply Hall|]. split.
  - intros l. rewrite Hall. cbn.
    destruct (applies r t l); cbn.
    + split; [reflexivity|]. intros _. apply attach_changes.
    + split; [intros H; now contradiction H | discriminate].
  - intros l0 l1 n1 H0 H1 Hn0 Hn1 Hne.
    split; [|apply attach_changes].
    assert (A0 : applies r t l0 = true).
    { unfold applies. rewrite H0, Hn0. apply String.eqb_refl. }
    assert (A1 : applies r t l1 = false).
    { unfold applies. rewrite H1, Hn1. apply String.eqb_neq. congruence. }
    rewrite Hall. cbn.
    destruct (address l1 =? address l0); cbn; rewrite A0, ?A1; reflexivity.
Qed.

Lemma label_gating_witness :
  exists t,
    currentTest (Sample.two_tests "logs in" "logs out") = Some t
    /\ testNames (Sample.two_tests "logs in" "logs out") !! 0 = Some (name t)
    /\ testNames (Sample.two_tests "logs in" "logs out") !! 1 = Some "logs out"
    /\ "logs out" <> name t
    /\ attachLabelsInConcurrent (Sample.two_tests "logs in" "logs out") t
         [Sample.label0; Sample.label1]
       = attach (Sample.two_tests "logs in" "logs out") t Sample.label0
    /\ attach (Sample.two_tests "logs in" "logs out") t Sample.label0 <> t.
Proof.
  eexists. split; [vm_compute; reflexivity|].
  split; [reflexivity|]. split; [reflexivity|]. split; [discriminate|].
  match goal with
  | |- attachLabelsInConcurrent _ ?t _ = _ /\ _ =>
      refine (proj2 (proj2 (label_gating (Sample.two_tests "logs in" "logs out") t []))
                Sample.label0 Sample.label1 "logs out" eq_refl eq_refl eq_refl eq_refl _)
  end.
  discriminate.
Defined.

(** ** Hooks *)

Lemma handleError_raises (e : Thrown) (x : exn) : handleError e = Raise x -> x = TypeError.
Proof.
  assert (Hp : forall v y, properties v = Raise y -> y = TypeError).
  { intros [] y; simpl; congruence. }
  assert (Hr : forall o y, replaceANSITags o = Raise y -> y = TypeError).
  { intros [] y; simpl; congruence. }
  unfold handleError. intros H.
  repeat match type of H with
         | context [match ?c with _ => _ end] => destruct c eqn:?; try discriminate H
         end.
  all: injection H as <-; eauto.
Qed.

Lemma startHook_stored (type : string) (r : AllureReporter) :
  executable_stored r -> executable_stored (startHook type r).
Proof.
  unfold executable_stored, startHook. intros Hr a.
  destruct (currentSuite r) as [g|] eqn:Hg; [|rewrite Hg; apply Hr].
  destruct (Js.startsWith type "before").
  - cbn. rewrite last_set_top.
    destruct (Js.startsWith type "after"); cbn; intros [= <-];
      rewrite ?length_app; cbn; lia.
  - rewrite Hg. destruct (Js.startsWith type "after"); [|apply Hr].
    cbn. intros [= <-]. rewrite length_app. cbn. lia.
Qed.

(** [endHook] never assigns [currentExecutable], whether it returns or
    throws. *)
Lemma endHook_keeps_current (error : Thrown) (r : AllureReporter) :
  currentExecutable (state_of (endHook error r)) = currentExecutable r.
Proof.
  unfold endHook. destruct (currentExecutable r) as [a|] eqn:Ha; [|exact Ha].
  destruct (is_truthy error); [|exact Ha].
  destruct (handleError error) as [[[st m] tr]|x]; exact Ha.
Qed.

(** [endHook] with an executable open: it is resolved in place and stays
    current. *)
Lemma endHook_resolves (error : Thrown) (r r' : AllureReporter) (a : nat) :
  currentExecutable r = Some a ->
  endHook error r = Returns r' ->
  exists st d,
    r' = set_allureRuntime (update_fixture a (resolve st d) (allureRuntime r)) r
    /\ (if is_truthy error
        then exists m tr, handleError error = Ok (st, m, tr)
                          /\ d = Some (mkDetails (Some m) (Some tr))
        else st = PASSED /\ d = None).
Proof.
  intros Ha. unfold endHook. rewrite Ha.
  destruct (is_truthy error).
  - destruct (handleError error) as [[[st m] tr]|x]; [|discriminate].
    intros [= <-]. exists st, (Some (mkDetails (Some m) (Some tr))). eauto.
  - intros [= <-]. exists PASSED, None. auto.
Qed.

Lemma lookup_resolved (a : nat) st d (rt : AllureRuntime) :
  a < length (fixtures rt) ->
  exists f, fixtures (update_fixture a (resolve st d) rt) !! a = Some f
            /\ fx_status f = Some st /\ fx_stage f = FINISHED
            /\ forall d', d = Some d' -> fx_statusDetails f = d'.
Proof.
  intros Hlt. destruct (lookup_lt_is_Some_2 _ _ Hlt) as [f0 Hf0].
  exists (resolve st d f0). cbn. rewrite list_lookup_alter_eq, Hf0. cbn.
  do 3 (split; [reflexivity|]). intros d' ->. reflexivity.
Qed.

(** C10: [endHook] leaves [currentExecutable] in place.  After a
    [startHook] and an [endHook] that returned, the executable is still
    current and finished; a second [endHook] does not raise the error for a
    missing executable, and where it returns it has set the status again
    ([PASSED] without an error, the classified status with one) and the
    stage to [FINISHED]. *)
Theorem endHook_twice (type : string) (e1 e2 : Thrown) (r r2 : AllureReporter) :
  executable_stored r ->
  endHook e1 (startHook type r) = Returns r2 ->
  exists a f2,
    currentExecutable r2 = Some a
    /\ fixtures (allureRuntime r2) !! a = Some f2
    /\ fx_stage f2 = FINISHED
    /\ (forall message r', endHook e2 r2 <> Throws (Error message) r')
    /\ (is_truthy e2 = false ->
        exists r3 f3,
          endHook e2 r2 = Returns r3
          /\ currentExecutable r3 = Some a
          /\ fixtures (allureRuntime r3) !! a = Some f3
          /\ fx_status f3 = Some PASSED
          /\ fx_stage f3 = FINISHED)
    /\ (forall st m tr,
          is_truthy e2 = true ->
          handleError e2 = Ok (st, m, tr) ->
          exists r3 f3,
            endHook e2 r2 = Returns r3
            /\ currentExecutable r3 = Some a
            /\ fixtures (allureRuntime r3) !! a = Some f3
            /\ fx_status f3 = Some st
            /\ fx_statusDetails f3 = mkDetails (Some m) (Some tr)
            /\ fx_stage f3 = FINISHED).
Proof.
  intros Hstored%(startHook_stored type) Hend.
  set (r1 := startHook type r) in *.
  destruct (currentExecutable r1) as [a|] eqn:Ha;
    [|unfold endHook in Hend; rewrite Ha in Hend; discriminate].
  pose proof (Hstored a Ha) as Hlt.
  destruct (endHook_resolves e1 r1 r2 a Ha Hend) as (st1 & d1 & -> & _).
  destruct (lookup_resolved a st1 d1 (allureRuntime r1) Hlt) as (f2 & Hf2 & _ & Hg2 & _).
  set (r2 := set_allureRuntime _ r1) in *.
  assert (Ha2 : currentExecutable r2 = Some a) by exact Ha.
  assert (Hlt2 : a < length (fixtures (allureRuntime r2))).
  { cbn. rewrite length_alter. exact Hlt. }
  exists a, f2. split; [exact Ha2|]. split; [exact Hf2|]. split; [exact Hg2|].
  split; [|split].
  - intros message r'. unfold endHook. rewrite Ha2.
    destruct (is_truthy e2); [|discriminate].
    destruct (handleError e2) as [[[st m] tr]|x] eqn:He; [discriminate|].
    apply handleError_raises in He as ->. discriminate.
  - intros Hfalse.
    destruct (lookup_resolved a PASSED None (allureRuntime r2) Hlt2)
      as (f3 & Hf3 & Hs3 & Hg3 & _).
    eexists _, f3. unfold endHook. rewrite Ha2, Hfalse.
    split; [reflexivity|]. repeat split; assumption.
  - intros st m tr Htrue He.
    destruct (lookup_resolved a st (Some (mkDetails (Some m) (Some tr)))
                (allureRuntime r2) Hlt2) as (f3 & Hf3 & Hs3 & Hg3 & Hd3).
    eexists _, f3. unfold endHook. rewrite Ha2, Htrue, He.
    split; [reflexivity|]. repeat split; try assumption.
    apply Hd3. reflexivity.
Qed.

Lemma endHook_twice_witness :
  executable_stored (startSuite Sample.env (Some "s") None Sample.fresh_reporter)
  /\ exists r2,
       endHook Nothing
         (startHook "beforeAll" (startSuite Sample.env (Some "s") None Sample.fresh_reporter))
       = Returns r2
       /\ exists a f2,
            currentExecutable r2 = Some a
            /\ fixtures (allureRuntime r2) !! a = Some f2
            /\ fx_stage f2 = FINISHED
            /\ (forall message r', endHook Sample.assertion_error r2 <> Throws (Error message) r')
            /\ (is_truthy Sample.assertion_error = false ->
                exists r3 f3,
                  endHook Sample.assertion_error r2 = Returns r3
                  /\ currentExecutable r3 = Some a
                  /\ fixtures (allureRuntime r3) !! a = Some f3
                  /\ fx_status f3 = Some PASSED
                  /\ fx_stage f3 = FINISHED)
            /\ (forall st m tr,
                  is_truthy Sample.assertion_error = true ->
                  handleError Sample.assertion_error = Ok (st, m, tr) ->
                  exists r3 f3,
                    endHook Sample.assertion_error r2 = Returns r3
                    /\ currentExecutable r3 = Some a
                    /\ fixtures (allureRuntime r3) !! a = Some f3
                    /\ fx_status f3 = Some st
                    /\ fx_statusDetails f3 = mkDetails (Some m) (Some tr)
                    /\ fx_stage f3 = FINISHED).
Proof.
  assert (Hs : executable_stored
                 (startSuite Sample.env (Some "s") None Sample.fresh_reporter)).
  { intros a H. discriminate H. }
  split; [exact Hs|]. eexists. split; [reflexivity|].
  exact (endHook_twice "beforeAll" Nothing Sample.assertion_error _ _ Hs eq_refl).
Defined.

(** ** Closing a suite *)

Lemma for_each_endStep (h : Host) (xs : list AllureStep) : forall rt,
  for_each (endStep h) xs rt
  = (imap (stopped_step h (clock_reads rt)) xs,
     mkRuntime (fixtures rt) (files rt) (clock_reads rt + length xs) (uuid_draws rt)).
Proof.
  induction xs as [|x xs IH]; intros rt; simpl.
  - rewrite Nat.add_0_r. destruct rt; reflexivity.
  - unfold endStep at 1, now. rewrite IH. cbn. f_equal; [f_equal|].
    + unfold stopped_step. now rewrite Nat.add_0_r.
    + apply imap_ext. intros i s _. unfold stopped_step. cbn.
      now rewrite Nat.add_succ_r.
    + f_equal. lia.
Qed.

Lemma for_each_endTest (h : Host) (xs : list AllureTest) : forall rt,
  for_each (Sink.endTest h) xs rt
  = (imap (stopped_test h (clock_reads rt)) xs,
     mkRuntime (fixtures rt)
               (files rt ++ map ResultFile (imap (stopped_test h (clock_reads rt)) xs))
               (clock_reads rt + length xs) (uuid_draws rt)).
Proof.
  induction xs as [|x xs IH]; intros rt; simpl.
  - rewrite Nat.add_0_r, app_nil_r. destruct rt; reflexivity.
  - unfold Sink.endTest at 1, now, write. rewrite IH. cbn.
    assert (E : imap (stopped_test h (S (clock_reads rt))) xs
                = imap (stopped_test h (clock_reads rt) ∘ S) xs).
    { apply imap_ext. intros i t _. unfold stopped_test. cbn.
      now rewrite Nat.add_succ_r. }
    assert (E0 : stopped_test h (clock_reads rt) 0 x
                 = set_stop x (Date_now h (clock_reads rt))).
    { unfold stopped_test. now rewrite Nat.add_0_r. }
    rewrite E, E0, <- app_assoc. cbn. f_equal. f_equal. lia.
Qed.

(** [endSuite] with a suite open, in full. *)
Lemma endSuite_returns (env : Environment) (r : AllureReporter) (suite : AllureGroup) :
  currentSuite r = Some suite ->
  let rt := allureRuntime r in
  let k := clock_reads rt in
  let closed := imap (stopped_test (host env) (k + length (steps r))) (tests r) in
  endSuite env r
  = Returns
      (mkReporter (currentExecutable r)
         (mkRuntime (fixtures rt)
            ((files rt ++ map ResultFile closed)
               ++ [ContainerFile suite (deref rt (befores suite)) (deref rt (afters suite))])
            (k + length (steps r) + length (tests r)) (uuid_draws rt))
         (removelast (suites r))
         (imap (stopped_step (host env) k) (steps r))
         closed
         (jiraUrl r) (tmsUrl r) (testNames r) (addCodeInReport r) (Reporter.labels r)).
Proof.
  intros Hsuite. unfold endSuite. rewrite Hsuite.
  rewrite for_each_endStep, for_each_endTest. reflexivity.
Qed.

Lemma last_is_Some {A} (l : list A) : 0 < length l -> is_Some (last l).
Proof.
  destruct l as [|x l] using rev_ind; [cbn; lia|].
  intros _. rewrite last_snoc. eauto.
Qed.

Lemma length_removelast {A} (l : list A) : length (removelast l) = length l - 1.
Proof.
  destruct l as [|x l] using rev_ind; [reflexivity|].
  rewrite removelast_last, length_app. cbn. lia.
Qed.

Lemma endSuite_pops (env : Environment) (r r' : AllureReporter) :
  endSuite env r = Returns r' -> length (suites r') = length (suites r) - 1.
Proof.
  unfold endSuite. destruct (currentSuite r) as [g|] eqn:Hg; [|discriminate].
  rewrite for_each_endStep, for_each_endTest. intros [= <-]. cbn.
  apply length_removelast.
Qed.

(** ** Closing the test file *)

(** The bound on the rounds of the loop of [endTestFile] is never what
    stops it: any bound that is at least the number of suites from the index
    on gives the same outcome. *)
Lemma endTestFile_from_bound (env : Environment) : forall n m i r,
  length (suites r) - i <= n ->
  length (suites r) - i <= m ->
  endTestFile_from env n i r = endTestFile_from env m i r.
Proof.
  induction n as [|n IH]; intros m i r Hn Hm.
  - destruct m as [|m]; [reflexivity|]. simpl.
    destruct (Nat.ltb_spec i (length (suites r))); [lia | reflexivity].
  - simpl. destruct (Nat.ltb_spec i (length (suites r))) as [Hlt|Hge].
    + destruct m as [|m]; [lia|]. simpl.
      destruct (Nat.ltb_spec i (length (suites r))); [|lia].
      destruct (endSuite env r) as [r1|e r1] eqn:He; [|reflexivity]. simpl.
      apply endSuite_pops in He. apply IH; lia.
    + destruct m as [|m]; [reflexivity|]. simpl.
      destruct (Nat.ltb_spec i (length (suites r))); [lia | reflexivity].
Qed.

(** The loop stops with half of the suites still open. *)
Lemma endTestFile_from_halves (env : Environment) : forall n i r,
  length (suites r) - i <= n ->
  exists r',
    endTestFile_from env n i r = Returns r'
    /\ length (suites r')
       = if i <? length (suites r) then (length (suites r) + i) / 2
         else length (suites r).
Proof.
  induction n as [|n IH]; intros i r Hn; cbn [endTestFile_from].
  - exists r. split; [reflexivity|].
    destruct (Nat.ltb_spec i (length (suites r))); [lia | reflexivity].
  - destruct (Nat.ltb_spec i (length (suites r))) as [Hlt|Hge];
      [|exists r; split; reflexivity].
    destruct (last_is_Some (suites r)) as [g Hg]; [lia|].
    rewrite (endSuite_returns env r g Hg). cbn [and_then].
    match goal with
    | |- context [endTestFile_from env n (S i) ?r1] =>
        destruct (IH (S i) r1) as (r' & -> & Hlen);
        [cbn; rewrite length_removelast; lia|]
    end.
    cbn [suites] in Hlen. rewrite length_removelast in Hlen.
    exists r'. split; [reflexivity|]. rewrite Hlen.
    pose proof (Nat.div_mod_eq (length (suites r) + i) 2) as Hd.
    pose proof (Nat.mod_upper_bound (length (suites r) + i) 2) as Hm.
    destruct (Nat.ltb_spec (S i) (length (suites r) - 1)) as [H1|H1].
    + replace (length (suites r) - 1 + S i) with (length (suites r) + i) by lia.
      reflexivity.
    + lia.
Qed.

Lemma endTestFile_halves (env : Environment) (r : AllureReporter) :
  exists r',
    endTestFile env r = Returns r'
    /\ length (suites r') = length (suites r) / 2.
Proof.
  destruct (endTestFile_from_halves env (length (suites r)) 0 r) as (r' & Hr & Hlen);
    [lia|].
  exists r'. split; [exact Hr|]. rewrite Hlen, Nat.add_0_r.
  destruct (Nat.ltb_spec 0 (length (suites r))) as [H|H]; [reflexivity|].
  replace (length (suites r)) with 0 by lia. reflexivity.
Qed.

(** C2, on the code: with two suites open [endTestFile] closes only the
    inner one.  The iterator of the loop is at index 1 when one suite is
    left, and stops; the outer suite stays open. *)
Theorem endTestFile_leaves_a_suite_open (env : Environment) (options : Options)
    (outer inner : option string) :
  let r := startSuite env inner None (startSuite env outer None (new options)) in
  length (suites r) = 2
  /\ exists r' g,
       endTestFile env r = Returns r'
       /\ currentSuite r' = Some g
       /\ group_name g = or_unnamed (default "Global" outer)
       /\ length (suites r') = 1.
Proof.
  intros r. split; [reflexivity|].
  eexists _, _. split; [reflexivity|].
  split; [reflexivity|]. split; reflexivity.
Qed.

(** ** Balanced nesting *)

Lemma opened_since_refl r : opened_since r r [] 0.
Proof. unfold opened_since. cbn. rewrite !app_nil_r. auto. Qed.

Lemma opened_since_trans r r1 r2 new1 k1 new2 k2 :
  opened_since r r1 new1 k1 ->
  opened_since r1 r2 new2 k2 ->
  opened_since r r2 (new1 ++ new2) (k1 + k2).
Proof.
  intros (Ht1 & Hn1 & Hs1 & Hf1 & Hw1) (Ht2 & Hn2 & Hs2 & Hf2 & Hw2).
  unfold opened_since.
  rewrite Ht2, Ht1, Hs2, Hs1, Hf2, Hf1, Hw2, Hw1, replicate_add, !app_assoc.
  repeat split. apply Forall_app; auto.
Qed.

Lemma startSuite_opens env n ts r : opened_since r (startSuite env n ts r) [] 0.
Proof.
  unfold opened_since, startSuite, group_startGroup, new_group, Sink.fresh.
  destruct (currentSuite r), ts; cbn; rewrite !app_nil_r; auto.
Qed.

Lemma startHook_opens ty r : exists k, opened_since r (startHook ty r) [] k.
Proof.
  unfold startHook.
  destruct (currentSuite r) as [g|] eqn:Hg;
    [|rewrite Hg; exists 0; apply opened_since_refl].
  destruct (Js.startsWith ty "before").
  - unfold currentSuite, addBefore.
    cbn [suites set_suites set_allureRuntime set_currentExecutable].
    rewrite last_set_top.
    destruct (Js.startsWith ty "after"); [exists 2 | exists 1];
      unfold opened_since; cbn; rewrite <- ?app_assoc, !app_nil_r; auto.
  - rewrite Hg. destruct (Js.startsWith ty "after");
      [exists 1 | exists 0; apply opened_since_refl].
    unfold opened_since; cbn; rewrite !app_nil_r; auto.
Qed.

Lemma calls_open env cs : forall r r1,
  calls env cs r = Returns r1 ->
  exists new hooks, opened_since r r1 new hooks.
Proof.
  induction cs as [|c cs IH]; intros r r1; simpl.
  - intros [= <-]. exists [], 0. apply opened_since_refl.
  - destruct c as [n ts | t st p | ty]; simpl.
    + intros (new & k & H)%IH. exists ([] ++ new), (0 + k).
      eapply opened_since_trans; [apply startSuite_opens | exact H].
    + destruct (currentSuite r) as [g|] eqn:Hg;
        [|unfold startTestCase; rewrite Hg; discriminate].
      destruct (startTestCase_returns env t st p r g Hg)
        as (t' & r' & -> & Ht & _ & _ & Hstop & Hs & _ & _ & Hf & Hw).
      simpl. intros (new & k & H)%IH. exists ([t'] ++ new), (0 + k).
      eapply opened_since_trans; [|exact H].
      unfold opened_since. rewrite Ht, Hs, Hf, Hw. cbn. rewrite app_nil_r.
      repeat split. constructor; [exact Hstop | constructor].
    + destruct (startHook_opens ty r) as [k0 H0].
      intros (new & k & H)%IH. exists ([] ++ new), (k0 + k).
      eapply opened_since_trans; [exact H0 | exact H].
Qed.




(** * Further properties of the code *)

(** ** Closing suites *)

Lemma div2_bounds (n i : nat) :
  i < n -> (n + i) / 2 < n /\ (S i < n - 1 -> (n - 1 + S i) / 2 = (n + i) / 2)
           /\ (n - 1 <= S i -> n - 1 = (n + i) / 2).
Proof.
  intros Hlt.
  pose proof (Nat.div_mod_eq (n + i) 2) as Hd.
  pose proof (Nat.mod_upper_bound (n + i) 2) as Hm.
  split; [lia|]. split; [|lia].
  intros _. replace (n - 1 + S i) with (n + i) by lia. reflexivity.
Qed.

Lemma endTestFile_from_takes (env : Environment) : forall n i r,
  length (suites r) - i <= n ->
  exists r',
    endTestFile_from env n i r = Returns r'
    /\ suites r'
       = take (if i <? length (suites r) then (length (suites r) + i) / 2
               else length (suites r)) (suites r).
Proof.
  induction n as [|n IH]; intros i r Hn; cbn [endTestFile_from].
  - exists r. split; [reflexivity|].
    destruct (Nat.ltb_spec i (length (suites r))); [lia|].
    now rewrite firstn_all.
  - destruct (Nat.ltb_spec i (length (suites r))) as [Hlt|Hge];
      [|exists r; split; [reflexivity | now rewrite firstn_all]].
    destruct (last_is_Some (suites r)) as [g Hg]; [lia|].
    rewrite (endSuite_returns env r g Hg). cbn [and_then].
    match goal with
    | |- context [endTestFile_from env n (S i) ?r1] =>
        destruct (IH (S i) r1) as (r' & -> & Hs);
        [cbn; rewrite length_removelast; lia|]
    end.
    cbn [suites] in Hs. rewrite length_removelast in Hs.
    exists r'. split; [reflexivity|]. rewrite Hs.
    destruct (div2_bounds (length (suites r)) i Hlt) as (Hb & H1 & H2).
    destruct (Nat.ltb_spec (S i) (length (suites r) - 1)) as [H|H].
    + rewrite (H1 H). apply firstn_removelast. exact Hb.
    + rewrite <- (H2 H). apply firstn_removelast. lia.
Qed.

(** X1: [endTestFile] always returns, and the suites left open are the
    outer half of those that were open (rounded down): the stack is empty
    afterwards exactly when at most one suite was open. *)
Theorem endTestFile_closes_inner_half (env : Environment) (r : AllureReporter) :
  exists r',
    endTestFile env r = Returns r'
    /\ suites r' = take (length (suites r) / 2) (suites r)
    /\ (suites r' = [] <-> length (suites r) <= 1).
Proof.
  destruct (endTestFile_from_takes env (length (suites r)) 0 r) as (r' & Hr & Hs);
    [lia|].
  assert (Hs' : suites r' = take (length (suites r) / 2) (suites r)).
  { rewrite Hs, Nat.add_0_r.
    destruct (Nat.ltb_spec 0 (length (suites r))) as [H|H]; [reflexivity|].
    destruct (suites r); [reflexivity | cbn in H; lia]. }
  exists r'. split; [exact Hr|]. split; [exact Hs'|].
  pose proof (Nat.div_mod_eq (length (suites r)) 2) as Hd.
  pose proof (Nat.mod_upper_bound (length (suites r)) 2) as Hm.
  split.
  - intros Hnil. apply (f_equal length) in Hnil.
    rewrite Hs', length_take in Hnil. cbn [length] in Hnil. lia.
  - intros Hle. rewrite Hs'.
    replace (length (suites r) / 2) with 0 by lia. reflexivity.
Qed.

Lemma map_uuid_stopped (h : Host) (k : nat) (ts : list AllureTest) :
  map uuid (imap (stopped_test h k) ts) = map uuid ts.
Proof.
  apply list_eq. intros i.
  rewrite !list_lookup_fmap, list_lookup_imap.
  destruct (ts !! i); reflexivity.
Qed.

(** X2: [endSuite] does not pop the tests it closes.  With two suites open,
    two [endSuite] calls in a row write the result of every test of the
    stack twice, once before each container, under the same [uuid]. *)
Theorem endSuite_twice_writes_tests_twice (env : Environment) (r : AllureReporter)
    (rest : list AllureGroup) (outer inner : AllureGroup) :
  suites r = rest ++ [outer; inner] ->
  exists r1 r2 b1 a1 b2 a2,
    endSuite env r = Returns r1
    /\ endSuite env r1 = Returns r2
    /\ map uuid (tests r1) = map uuid (tests r)
    /\ map uuid (tests r2) = map uuid (tests r)
    /\ suites r2 = rest
    /\ files (allureRuntime r2)
       = files (allureRuntime r)
         ++ map ResultFile (tests r1) ++ [ContainerFile inner b1 a1]
         ++ map ResultFile (tests r2) ++ [ContainerFile outer b2 a2].
Proof.
  intros Hs.
  assert (Hin : currentSuite r = Some inner).
  { unfold currentSuite. rewrite Hs.
    change (rest ++ [outer; inner]) with (rest ++ [outer] ++ [inner]).
    rewrite app_assoc. apply last_snoc. }
  pose proof (endSuite_returns env r inner Hin) as H1. cbv zeta in H1.
  match type of H1 with _ = Returns ?x => set (r1 := x) in * end.
  assert (Hs1 : suites r1 = rest ++ [outer]).
  { cbn. rewrite Hs.
    change (rest ++ [outer; inner]) with (rest ++ [outer] ++ [inner]).
    rewrite app_assoc. apply removelast_last. }
  assert (Hout : currentSuite r1 = Some outer).
  { unfold currentSuite. rewrite Hs1. apply last_snoc. }
  pose proof (endSuite_returns env r1 outer Hout) as H2. cbv zeta in H2.
  match type of H2 with _ = Returns ?x => set (r2 := x) in * end.
  exists r1, r2. do 4 eexists.
  split; [exact H1|]. split; [exact H2|].
  split; [apply map_uuid_stopped|].
  split; [cbn; now rewrite !map_uuid_stopped|].
  split; [cbn [suites r2]; rewrite Hs1; apply removelast_last|].
  cbn. rewrite <- !app_assoc. reflexivity.
Qed.

Lemma endSuite_twice_writes_tests_twice_witness :
  let r := startSuite Sample.env (Some "inner") None Sample.running in
  suites r = [] ++ [default (mkGroup "" "" [] [] []) (suites r !! 0);
                    default (mkGroup "" "" [] [] []) (suites r !! 1)]
  /\ length (tests r) = 1
  /\ exists r1 r2 b1 a1 b2 a2,
       endSuite Sample.env r = Returns r1
       /\ endSuite Sample.env r1 = Returns r2
       /\ map uuid (tests r1) = map uuid (tests r)
       /\ map uuid (tests r2) = map uuid (tests r)
       /\ suites r2 = []
       /\ files (allureRuntime r2)
          = files (allureRuntime r)
            ++ map ResultFile (tests r1)
            ++ [ContainerFile (default (mkGroup "" "" [] [] []) (suites r !! 1)) b1 a1]
            ++ map ResultFile (tests r2)
            ++ [ContainerFile (default (mkGroup "" "" [] [] []) (suites r !! 0)) b2 a2].
Proof.
  intros r.
  assert (H : suites r = [] ++ [default (mkGroup "" "" [] [] []) (suites r !! 0);
                                default (mkGroup "" "" [] [] []) (suites r !! 1)])
    by (vm_compute; reflexivity).
  split; [exact H|]. split; [vm_compute; reflexivity|].
  exact (endSuite_twice_writes_tests_twice Sample.env r [] _ _ H).
Defined.

(** ** The life of a test *)

Lemma uuid_core t t' : core t' = core t -> uuid t' = uuid t.
Proof. intros H. core_fields H. assumption. Qed.

Lemma fullName_core t t' : core t' = core t -> fullName t' = fullName t.
Proof. intros H. core_fields H. assumption. Qed.

Lemma status_core t t' : core t' = core t -> status t' = status t.
Proof. intros H. core_fields H. assumption. Qed.

Lemma statusDetails_core t t' : core t' = core t -> statusDetails t' = statusDetails t.
Proof. intros H. core_fields H. assumption. Qed.

Lemma start_core t t' : core t' = core t -> start t' = start t.
Proof. intros H. core_fields H. assumption. Qed.

Lemma description_core t t' : core t' = core t -> description t' = description t.
Proof. intros H. core_fields H. assumption. Qed.

Tactic Notation "by_core" uconstr(c) :=
  first [ rewrite (uuid_core _ _ c) | rewrite (historyId_core _ _ c)
        | rewrite (name_core _ _ c) | rewrite (fullName_core _ _ c)
        | rewrite (status_core _ _ c) | rewrite (statusDetails_core _ _ c)
        | rewrite (stage_core _ _ c) | rewrite (start_core _ _ c)
        | rewrite (stop_core _ _ c) | rewrite (description_core _ _ c) ].

(** The fields of the test that [startTestCase] pushes. *)
Lemma startTestCase_pushes env test state testPath r suite :
  currentSuite r = Some suite ->
  exists t r1,
    startTestCase env test state testPath r = Returns r1
    /\ tests r1 = tests r ++ [t]
    /\ steps r1 = steps r
    /\ suites r1 = set_top (add_child (uuid t) suite) (suites r)
    /\ currentExecutable r1 = currentExecutable r
    /\ testNames r1 = testNames r
    /\ Reporter.labels r1 = Reporter.labels r
    /\ fixtures (allureRuntime r1) = fixtures (allureRuntime r)
    /\ files (allureRuntime r1) = files (allureRuntime r)
    /\ clock_reads (allureRuntime r1) = S (clock_reads (allureRuntime r))
    /\ uuid t = randomUUID (host env) (uuid_draws (allureRuntime r))
    /\ name t = or_unnamed (test_name test)
    /\ historyId t = MD5.md5_hex (testPath ++ "." ++ test_name test)
    /\ status t = None
    /\ statusDetails t = empty_details
    /\ stage t = RUNNING
    /\ stop t = None.
Proof.
  intros Hsuite. unfold startTestCase. rewrite Hsuite.
  cbv beta iota zeta delta [group_startTest new_test Sink.fresh now].
  match goal with
  | |- context [pushTest ?t0 ?r0] => set (t := t0); set (r1 := r0)
  end.
  assert (Hfields :
            uuid t = randomUUID (host env) (uuid_draws (allureRuntime r))
            /\ name t = or_unnamed (test_name test)
            /\ historyId t = MD5.md5_hex (testPath ++ "." ++ test_name test)
            /\ status t = None
            /\ statusDetails t = empty_details
            /\ stage t = RUNNING
            /\ stop t = None).
  { subst t. repeat split; by_core (core_addSuiteLabelsToTestCase _ _ _);
      repeat match goal with
             | |- context [if ?b then _ else _] => destruct b
             | |- context [match fn ?t with _ => _ end] => destruct (fn t)
             | |- context [extractCodeDetails ?e ?c] =>
                 destruct (extractCodeDetails e c) as [[? ?] ?]
             end;
      cbn [uuid name historyId status statusDetails stage stop addLabel set_description];
      try by_core (core_setAllureReportPragmas _ _ _); reflexivity. }
  destruct Hfields as (Hu & Hn & Hh & Hs & Hsd & Hg & Hsp).
  exists t, (pushTest t r1).
  split; [reflexivity|]. do 2 (split; [reflexivity|]).
  split.
  { cbn. rewrite Hu. reflexivity. }
  do 6 (split; [reflexivity|]).
  repeat split; assumption.
Qed.

Lemma removelast_set_top {A} (x : A) (l : list A) : removelast (set_top x l) = removelast l.
Proof. unfold set_top. apply removelast_last. Qed.

Lemma set_top_last {A} (x : A) (l : list A) : last l = Some x -> set_top x l = l.
Proof. intros [l' ->]%last_Some. apply set_top_snoc. Qed.

(** [endTest] with a test open, in full. *)
Lemma endTest_returns (env : Environment) (r : AllureReporter) (t : AllureTest) :
  currentTest r = Some t ->
  let rt := allureRuntime r in
  let t' := set_stop (set_stage FINISHED t) (Date_now (host env) (clock_reads rt)) in
  Reporter.endTest env r
  = Returns
      (mkReporter (currentExecutable r)
         (mkRuntime (fixtures rt) (files rt ++ [ResultFile t'])
                    (S (clock_reads rt)) (uuid_draws rt))
         (suites r) (steps r) (removelast (tests r))
         (jiraUrl r) (tmsUrl r) (testNames r) (addCodeInReport r) (Reporter.labels r)).
Proof.
  intros Hcur. unfold Reporter.endTest. rewrite Hcur.
  unfold Sink.endTest, now, write, popTest. cbn.
  now rewrite removelast_set_top.
Qed.



(** ** Setting the status of a test *)

(** X4: [passTestCase] has no guard.  With a test open it returns and sets
    [PASSED] whatever the status was, also over [FAILED], and it leaves the
    status details of an earlier failure in place; only the top of the test
    stack changes. *)
Theorem passTestCase_overwrites (r : AllureReporter) (t : AllureTest) :
  currentTest r = Some t ->
  exists r' t',
    passTestCase r = Returns r'
    /\ tests r' = set_top t' (tests r)
    /\ status t' = Some PASSED
    /\ statusDetails t' = statusDetails t
    /\ stage t' = stage t
    /\ name t' = name t
    /\ suites r' = suites r
    /\ allureRuntime r' = allureRuntime r.
Proof.
  intros Hcur. unfold passTestCase. rewrite Hcur.
  pose proof (core_attachLabelsInConcurrent r t (Reporter.labels r)) as Hc.
  eexists _, _. split; [reflexivity|]. split; [reflexivity|].
  cbn. core_fields Hc. repeat split; assumption.
Qed.

Lemma passTestCase_overwrites_witness :
  exists t,
    currentTest Sample.failed = Some t
    /\ status t = Some FAILED
    /\ exists r' t',
         passTestCase Sample.failed = Returns r'
         /\ tests r' = set_top t' (tests Sample.failed)
         /\ status t' = Some PASSED
         /\ statusDetails t' = statusDetails t
         /\ stage t' = stage t
         /\ name t' = name t
         /\ suites r' = suites Sample.failed
         /\ allureRuntime r' = allureRuntime Sample.failed.
Proof.
  eexists. split; [vm_compute; reflexivity|]. split; [reflexivity|].
  apply passTestCase_overwrites. reflexivity.
Defined.





(** ** When the classifier returns *)

Lemma or_else_stack c s x : Js.or_else (Some (String c s)) x = Some (String c s).
Proof. reflexivity. Qed.

Lemma truthy_two_lines a b : Js.truthy (Some (Js.join Js.nl [a; b])) = true.
Proof. unfold Js.join. cbn. destruct a; reflexivity. Qed.

(** X7: [handleError] returns for every error object that has a non-empty
    stack, whatever its name and message: the status is [FAILED] when the
    error carries a matcher result and [BROKEN] when it does not. *)
Theorem handleError_returns_with_stack (name message stack : option string)
    (matcherResult : option MatcherMessage) :
  Js.truthy stack = true ->
  exists m tr,
    handleError (ErrorObject name message stack matcherResult)
    = Ok (match matcherResult with Some _ => FAILED | None => BROKEN end, m, tr).
Proof.
  destruct stack as [[|c s]|]; try discriminate. intros _.
  unfold handleError. cbn [properties].
  destruct matcherResult as [mm|]; cbv beta iota zeta; rewrite !or_else_stack.
  - rewrite truthy_two_lines. cbn [negb andb]. cbv beta iota zeta.
    rewrite truthy_two_lines. cbn [negb]. cbv beta iota zeta.
    destruct (Js.includes _ _); cbn [replaceANSITags]; eauto.
  - destruct (Js.truthy name) eqn:Hn; cbn [negb andb option_map Js.to_text];
      cbv beta iota zeta.
    + rewrite Hn. cbn [negb]. cbv beta iota zeta.
      destruct name as [n|]; [|discriminate].
      destruct (Js.includes _ _); cbn [replaceANSITags]; eauto.
    + change (Js.truthy (Some (String c s))) with true. cbn [negb andb].
      cbv beta iota zeta. change (Js.truthy (Some (String c s))) with true.
      cbn [negb]. cbv beta iota zeta.
      destruct (Js.includes _ _); cbn [replaceANSITags]; eauto.
Qed.

Lemma handleError_returns_with_stack_witness :
  Js.truthy (Some "Error: boom at x") = true
  /\ exists m tr,
       handleError (ErrorObject None (Some "boom") (Some "Error: boom at x") None)
       = Ok (BROKEN, m, tr).
Proof.
  split; [reflexivity|].
  exact (handleError_returns_with_stack None (Some "boom") (Some "Error: boom at x")
           None eq_refl).
Defined.

(** X8: for an error object with a non-empty name and no matcher result,
    [handleError] throws a [TypeError] exactly when the object has no
    (or an empty) stack and no message at all: the trace is then [undefined]
    and has no method [replace].  In every other case it returns [BROKEN]
    with the name, stripped of escape sequences, as message. *)
Theorem handleError_throws_without_trace (c : ascii) (n : string)
    (message stack : option string) :
  let error := ErrorObject (Some (String c n)) message stack None in
  (handleError error = Raise TypeError <-> Js.truthy stack = false /\ message = None)
  /\ (Js.truthy stack = true \/ message <> None ->
      exists tr, handleError error = Ok (BROKEN, Text.strip_ansi (String c n), tr)).
Proof.
  intros error.
  assert (Hok : Js.truthy stack = true \/ message <> None ->
                exists tr, handleError error = Ok (BROKEN, Text.strip_ansi (String c n), tr)).
  { intros H. subst error. unfold handleError. cbn [properties]. cbv beta iota zeta.
    change (Js.truthy (Some (String c n))) with true. cbn [negb andb].
    cbv beta iota zeta. change (Js.truthy (Some (String c n))) with true.
    cbn [negb]. cbv beta iota zeta.
    assert (Ht : exists t, Js.or_else stack message = Some t).
    { unfold Js.or_else. destruct (Js.truthy stack) eqn:Hs.
      - destruct stack; [eauto | discriminate].
      - destruct H as [H|H]; [discriminate|]. destruct message; [eauto | congruence]. }
    destruct Ht as [t ->].
    destruct (Js.includes _ _); cbn [replaceANSITags]; eauto. }
  split; [|exact Hok]. split.
  - intros Hraise.
    destruct (Js.truthy stack) eqn:Hs.
    + destruct Hok as [tr Htr]; [now left|]. congruence.
    + split; [reflexivity|]. destruct message as [m|]; [|reflexivity].
      destruct Hok as [tr Htr]; [right; discriminate|]. congruence.
  - intros [Hs ->]. subst error. unfold handleError. cbn [properties].
    cbv beta iota zeta. unfold Js.or_else. rewrite Hs. reflexivity.
Qed.

(** X9: [replaceANSITags] returns a string unchanged when none of its
    characters is ESC (0x1b) or CSI (0x9b). *)
Theorem replaceANSITags_without_escape (s : string) :
  Forall (fun c => is_escape c = false) (list_ascii_of_string s) ->
  replaceANSITags (Some s) = Ok s.
Proof.
  intros Hs. unfold replaceANSITags, Text.strip_ansi.
  assert (Hgen : forall after fuel before,
             Forall (fun c => is_escape c = false) after ->
             Regex.remove_all fuel Text.ansiRe before after = after).
  { clear. induction after as [|c rest IH]; intros fuel before Hall.
    - destruct fuel; reflexivity.
    - destruct fuel as [|fuel]; [reflexivity|].
      inversion Hall as [|? ? Hc Hrest]; subst.
      assert (Hm : Regex.match_at Text.ansiRe (before, c :: rest) = None).
      { unfold Regex.match_at, Text.ansiRe, Text.Concat.
        cbn [fold_right Regex.run fst snd]. unfold is_escape in Hc.
        rewrite Hc. reflexivity. }
      cbn [Regex.remove_all]. rewrite Hm. f_equal. apply IH. exact Hrest. }
  rewrite (Hgen _ _ _ Hs), string_of_list_ascii_of_string. reflexivity.
Qed.

Lemma replaceANSITags_without_escape_witness :
  Forall (fun c => is_escape c = false) (list_ascii_of_string "Expected: 1")
  /\ replaceANSITags (Some "Expected: 1") = Ok "Expected: 1".
Proof.
  assert (H : Forall (fun c => is_escape c = false) (list_ascii_of_string "Expected: 1")).
  { repeat constructor. }
  split; [exact H|]. exact (replaceANSITags_without_escape "Expected: 1" H).
Defined.

Lemma handleError_throws_without_trace_witness :
  (Js.truthy None = false /\ @None string = None)
  /\ handleError (ErrorObject (Some "TypeError") None None None) = Raise TypeError
  /\ (Js.truthy None = true \/ Some "boom" <> None)
  /\ exists tr,
       handleError (ErrorObject (Some "TypeError") (Some "boom") None None)
       = Ok (BROKEN, Text.strip_ansi "TypeError", tr).
Proof.
  assert (H1 : Js.truthy None = false /\ @None string = None) by (split; reflexivity).
  assert (H2 : Js.truthy None = true \/ Some "boom" <> None) by (right; discriminate).
  split; [exact H1|].
  split; [exact (proj2 (proj1 (handleError_throws_without_trace "T" "ypeError"
                                 None None)) H1)|].
  split; [exact H2|].
  exact (proj2 (handleError_throws_without_trace "T" "ypeError" (Some "boom") None) H2).
Defined.

(** ** What attaching labels adds *)

Lemma labels_attach r t l :
  Sink.labels (attach r t l)
  = Sink.labels t ++ label_entries (label_name (target l)) (label_value (target l))
  /\ links (attach r t l)
     = links t ++ link_entries r (label_name (target l)) (label_value (target l)).
Proof.
  unfold attach, setAllureLabelsAndLinks, label_entries, link_entries.
  destruct (String.eqb (label_name (target l)) "issue");
    [cbn; now rewrite app_nil_r|].
  destruct (String.eqb (label_name (target l)) "tms");
    [cbn; now rewrite app_nil_r|].
  cbn [orb].
  destruct (String.eqb (label_name (target l)) "tag" ||
            String.eqb (label_name (target l)) "tags");
    [cbn; now rewrite app_nil_r|].
  destruct (String.eqb (label_name (target l)) "milestone");
    cbn; rewrite ?app_nil_r, <- ?app_assoc; split; reflexivity.
Qed.

Lemma labels_fold_attach r (ls : list (Ref Labels)) : forall t,
  Sink.labels (fold_left (attach r) ls t)
  = Sink.labels t
    ++ flat_map (fun l => label_entries (label_name (target l)) (label_value (target l))) ls
  /\ links (fold_left (attach r) ls t)
     = links t
       ++ flat_map (fun l => link_entries r (label_name (target l)) (label_value (target l)))
            ls.
Proof.
  induction ls as [|l ls IH]; intros t; cbn [fold_left flat_map].
  - now rewrite !app_nil_r.
  - destruct (IH (attach r t l)) as [-> ->].
    destruct (labels_attach r t l) as [-> ->].
    now rewrite <- !app_assoc.
Qed.

Lemma attached_entries (r : AllureReporter) (t : AllureTest) (ls : list (Ref Labels)) :
  Sink.labels (attachLabelsInConcurrent r t ls)
  = Sink.labels t
    ++ flat_map (fun l => label_entries (label_name (target l)) (label_value (target l)))
         (admitted r t ls)
  /\ links (attachLabelsInConcurrent r t ls)
     = links t
       ++ flat_map (fun l => link_entries r (label_name (target l)) (label_value (target l)))
            (admitted r t ls).
Proof.
  unfold attachLabelsInConcurrent, admitted.
  rewrite (fold_gate r t (distinct [] ls) t eq_refl).
  apply labels_fold_attach.
Qed.

(** X10: attaching the accumulated labels only appends.  The labels and
    links a test had stay in place and in order; behind them come the
    entries of the labels that pass the gate, one object after the other:
    an issue or TMS link, a tag, a milestone with its epic, or a label named
    after the annotation.  No other field of the test changes. *)
Theorem attachLabelsInConcurrent_appends (r : AllureReporter) (t : AllureTest)
    (ls : list (Ref Labels)) :
  let t' := attachLabelsInConcurrent r t ls in
  Sink.labels t'
  = Sink.labels t
    ++ flat_map (fun l => label_entries (label_name (target l)) (label_value (target l)))
         (admitted r t ls)
  /\ links t'
     = links t
       ++ flat_map (fun l => link_entries r (label_name (target l)) (label_value (target l)))
            (admitted r t ls)
  /\ core t' = core t.
Proof.
  intros t'. subst t'.
  destruct (attached_entries r t ls) as [Hl Hk].
  split; [exact Hl|]. split; [exact Hk|]. apply core_attachLabelsInConcurrent.
Qed.

Lemma admitted_core r t t' ls : core t' = core t -> admitted r t' ls = admitted r t ls.
Proof.
  intros H. unfold admitted.
  apply filter_ext_in. intros l _. apply applies_core, H.
Qed.

(** X11: the early return of [failTestCase] comes after the labels are
    attached.  On a test that is already [FAILED] every further call
    returns, leaves status and details alone, and appends the entries of the
    admitted labels once more: after [k] calls they are there [k] times
    over. *)
Theorem failTestCase_attaches_again (errors : list Thrown) (r : AllureReporter)
    (t : AllureTest) :
  currentTest r = Some t ->
  status t = Some FAILED ->
  exists r' t',
    failTestCases errors r = Returns r'
    /\ currentTest r' = Some t'
    /\ status t' = Some FAILED
    /\ Sink.labels t'
       = Sink.labels t
         ++ concat (replicate (length errors)
              (flat_map (fun l => label_entries (label_name (target l))
                                                (label_value (target l)))
                        (admitted r t (Reporter.labels r))))
    /\ links t'
       = links t
         ++ concat (replicate (length errors)
              (flat_map (fun l => link_entries r (label_name (target l))
                                               (label_value (target l)))
                        (admitted r t (Reporter.labels r)))).
Proof.
  revert r t. induction errors as [|e errors IH]; intros r t Hcur Hst.
  - exists r, t. cbn. rewrite !app_nil_r. auto.
  - cbn [failTestCases length replicate concat].
    unfold failTestCase at 1. rewrite Hcur.
    destruct (attached_entries r t (Reporter.labels r)) as (Hl & Hk).
    pose proof (core_attachLabelsInConcurrent r t (Reporter.labels r)) as Hc.
    set (t1 := attachLabelsInConcurrent r t (Reporter.labels r)) in *.
    rewrite (status_core _ _ Hc), Hst. cbn [bool_decide decide_rel orb and_then].
    change (bool_decide (Some FAILED = Some FAILED)) with true. cbn [orb and_then].
    set (r1 := set_tests (set_top t1 (tests r)) r).
    destruct (IH r1 t1) as (r' & t' & Hrun & Hcur' & Hst' & Hl' & Hk').
    { apply last_set_top. }
    { rewrite (status_core _ _ Hc). exact Hst. }
    exists r', t'. split; [exact Hrun|]. split; [exact Hcur'|]. split; [exact Hst'|].
    change (Reporter.labels r1) with (Reporter.labels r) in Hl', Hk'.
    rewrite (admitted_core r1 t t1 _ Hc) in Hl', Hk'.
    change (admitted r1 t (Reporter.labels r)) with (admitted r t (Reporter.labels r))
      in Hl', Hk'.
    rewrite Hl', Hk', Hl, Hk, <- !app_assoc. split; reflexivity.
Qed.

Lemma failTestCase_attaches_again_witness :
  exists t,
    currentTest Sample.failed_with_labels = Some t
    /\ status t = Some FAILED
    /\ exists r' t',
         failTestCases [Nothing; Nothing] Sample.failed_with_labels = Returns r'
         /\ currentTest r' = Some t'
         /\ status t' = Some FAILED
         /\ length (Sink.labels t') = length (Sink.labels t) + 2.
Proof.
  eexists. split; [vm_compute; reflexivity|]. split; [reflexivity|].
  match goal with
  | |- context [length (Sink.labels ?t) + 2] =>
      destruct (failTestCase_attaches_again [Nothing; Nothing]
                  Sample.failed_with_labels t eq_refl eq_refl)
        as (r' & t' & H1 & H2 & H3 & H4 & _)
  end.
  exists r', t'. split; [exact H1|]. split; [exact H2|]. split; [exact H3|].
  rewrite H4, length_app. reflexivity.
Defined.

(** ** One entry for each label object *)

Lemma existsb_address (a : nat) (seen : list nat) :
  existsb (Nat.eqb a) seen = true <-> In a seen.
Proof.
  rewrite existsb_exists. split.
  - intros (b & Hb & ->%Nat.eqb_eq). exact Hb.
  - intros H. exists a. split; [exact H | apply Nat.eqb_refl].
Qed.

Lemma distinct_same_members (ls : list (Ref Labels)) : forall seen seen',
  (forall a, In a seen <-> In a seen') ->
  distinct seen ls = distinct seen' ls.
Proof.
  induction ls as [|l ls IH]; intros seen seen' Hsame; cbn [distinct]; [reflexivity|].
  assert (E : existsb (Nat.eqb (address l)) seen = existsb (Nat.eqb (address l)) seen').
  { apply eq_true_iff_eq. rewrite !existsb_address. apply Hsame. }
  rewrite E. destruct (existsb _ seen'); [apply IH, Hsame|].
  f_equal. apply IH. intros a. cbn. rewrite Hsame. reflexivity.
Qed.

Lemma distinct_all_seen (ls : list (Ref Labels)) : forall seen,
  (forall l, In l ls -> In (address l) seen) ->
  distinct seen ls = [].
Proof.
  induction ls as [|l ls IH]; intros seen Hall; cbn [distinct]; [reflexivity|].
  rewrite (proj2 (existsb_address (address l) seen)) by (apply Hall; now left).
  apply IH. intros l' Hl'. apply Hall. now right.
Qed.

Lemma distinct_app (l1 l2 : list (Ref Labels)) : forall seen,
  distinct seen (l1 ++ l2)
  = distinct seen l1 ++ distinct (map address l1 ++ seen) l2.
Proof.
  induction l1 as [|l l1 IH]; intros seen; cbn [distinct app map]; [reflexivity|].
  destruct (existsb (Nat.eqb (address l)) seen) eqn:E.
  - rewrite IH. f_equal. apply distinct_same_members.
    intros a. cbn. rewrite !in_app_iff. apply existsb_address in E.
    split; [auto | intros [<- | H]; auto].
  - rewrite IH. cbn. f_equal. f_equal. apply distinct_same_members.
    intros a. cbn. rewrite !in_app_iff. cbn. tauto.
Qed.

(** X12: a label object is applied once however often it was accumulated:
    label objects that are already in the list ahead of them add nothing,
    whereas another object with the same content would count again. *)
Theorem attachLabelsInConcurrent_once_per_object (r : AllureReporter) (t : AllureTest)
    (ls again : list (Ref Labels)) :
  (forall l, In l again -> In (address l) (map address ls)) ->
  attachLabelsInConcurrent r t (ls ++ again) = attachLabelsInConcurrent r t ls.
Proof.
  intros Hagain. unfold attachLabelsInConcurrent.
  rewrite distinct_app, (distinct_all_seen again), app_nil_r; [reflexivity|].
  intros l Hl. rewrite app_nil_r. apply Hagain, Hl.
Qed.

Lemma attachLabelsInConcurrent_once_per_object_witness :
  (forall l, In l [Sample.label0] -> In (address l) (map address [Sample.label0; Sample.label1]))
  /\ attachLabelsInConcurrent (Sample.two_tests "logs in" "logs out") Sample.blank_test
       ([Sample.label0; Sample.label1] ++ [Sample.label0])
     = attachLabelsInConcurrent (Sample.two_tests "logs in" "logs out") Sample.blank_test
         [Sample.label0; Sample.label1].
Proof.
  assert (H : forall l, In l [Sample.label0] ->
                        In (address l) (map address [Sample.label0; Sample.label1])).
  { intros l [<- | []]. left. reflexivity. }
  split; [exact H|].
  exact (attachLabelsInConcurrent_once_per_object _ _ _ _ H).
Defined.

(** ** What no event undoes *)

Lemma grown_refl r : grown_from r r.
Proof. unfold grown_from. repeat split; try reflexivity. now left. Qed.

Lemma grown_trans r1 r2 r3 : grown_from r1 r2 -> grown_from r2 r3 -> grown_from r1 r3.
Proof.
  intros (Hn & Hf & Hl & Hj & Ht & Ha & Hb & He) (Hn' & Hf' & Hl' & Hj' & Ht' & Ha' & Hb' & He').
  unfold grown_from.
  split; [etransitivity; eassumption|]. split; [etransitivity; eassumption|].
  split; [lia|]. do 4 (split; [congruence|]).
  destruct He' as [He'|He']; [|now right].
  destruct He as [He|(a & Ha1 & Ha2)]; [left; congruence|].
  right. exists a. split; [congruence | lia].
Qed.

Ltac grown_by_computation :=
  unfold grown_from; cbn;
  repeat split;
  first [ reflexivity | left; reflexivity | eexists; reflexivity
        | apply prefix_app_r; reflexivity | rewrite ?length_app, ?length_alter; cbn; lia ].

Lemma grown_set_tests r ts : grown_from r (set_tests ts r).
Proof. grown_by_computation. Qed.

Lemma grown_startSuite env n ts r : grown_from r (startSuite env n ts r).
Proof.
  unfold startSuite, group_startGroup, new_group, Sink.fresh.
  destruct (currentSuite r), ts; grown_by_computation.
Qed.

Lemma grown_startHook ty r : grown_from r (startHook ty r).
Proof.
  unfold startHook.
  destruct (currentSuite r) as [g|] eqn:Hg; [|rewrite Hg; apply grown_refl].
  destruct (Js.startsWith ty "before").
  - unfold currentSuite, addBefore.
    cbn [suites set_suites set_allureRuntime set_currentExecutable].
    rewrite last_set_top.
    destruct (Js.startsWith ty "after"); unfold grown_from; cbn;
      (repeat split; try reflexivity;
       [ rewrite ?length_app; cbn; lia
       | right; eexists; split; [reflexivity | rewrite ?length_app; cbn; lia] ]).
  - rewrite Hg. destruct (Js.startsWith ty "after"); [|apply grown_refl].
    unfold grown_from; cbn.
    repeat split; try reflexivity;
      [ rewrite ?length_app; cbn; lia
      | right; eexists; split; [reflexivity | rewrite ?length_app; cbn; lia] ].
Qed.

Lemma grown_endHook e r : grown_from r (state_of (endHook e r)).
Proof.
  unfold endHook. destruct (currentExecutable r) as [a|]; [|apply grown_refl].
  destruct (is_truthy e).
  - destruct (handleError e) as [[[st m] tr]|x]; [|apply grown_refl].
    grown_by_computation.
  - grown_by_computation.
Qed.

Lemma grown_startTestCase env t st p r :
  grown_from r (state_of (startTestCase env t st p r)).
Proof.
  unfold startTestCase.
  destruct (currentSuite r) as [g|]; [|apply grown_refl].
  cbv beta iota zeta delta [group_startTest new_test Sink.fresh now].
  cbn [state_of]. unfold pushTest. grown_by_computation.
Qed.

Lemma grown_passTestCase r : grown_from r (state_of (passTestCase r)).
Proof.
  unfold passTestCase. destruct (currentTest r); [|apply grown_refl].
  apply grown_set_tests.
Qed.

Lemma grown_pendingTestCase t r : grown_from r (state_of (pendingTestCase t r)).
Proof.
  unfold pendingTestCase. destruct (currentTest r); [|apply grown_refl].
  apply grown_set_tests.
Qed.

Lemma grown_failTestCase e r : grown_from r (state_of (failTestCase e r)).
Proof.
  unfold failTestCase. destruct (currentTest r); [|apply grown_refl].
  destruct (_ || _); [apply grown_set_tests|].
  destruct (handleError e) as [[[st m] tr]|x]; [|apply grown_set_tests].
  cbn [state_of]. eapply grown_trans; apply grown_set_tests.
Qed.

Lemma grown_endTest env r : grown_from r (state_of (Reporter.endTest env r)).
Proof.
  destruct (currentTest r) as [t|] eqn:Ht.
  - rewrite (endTest_returns env r t Ht). grown_by_computation.
  - unfold Reporter.endTest. rewrite Ht. apply grown_refl.
Qed.

Lemma grown_endSuite env r : grown_from r (state_of (endSuite env r)).
Proof.
  destruct (currentSuite r) as [g|] eqn:Hg.
  - rewrite (endSuite_returns env r g Hg). unfold grown_from. cbn.
    repeat split; try reflexivity; [|now left].
    rewrite <- app_assoc. apply prefix_app_r. reflexivity.
  - unfold endSuite. rewrite Hg. apply grown_refl.
Qed.

Lemma grown_and_then r o k :
  grown_from r (state_of o) ->
  (forall r1, grown_from r1 (state_of (k r1))) ->
  grown_from r (state_of (and_then o k)).
Proof.
  intros Ho Hk. destruct o as [r1|e r1]; cbn in *; [|exact Ho].
  eapply grown_trans; [exact Ho | apply Hk].
Qed.

Lemma grown_endTestFile_from env : forall n i r,
  grown_from r (state_of (endTestFile_from env n i r)).
Proof.
  induction n as [|n IH]; intros i r; cbn [endTestFile_from]; [apply grown_refl|].
  destruct (i <? length (suites r)); [|apply grown_refl].
  apply grown_and_then; [apply grown_endSuite | intros r1; apply IH].
Qed.

Lemma grown_handleTestEvent env event state this :
  grown_from (Adapter.reporter this) (state_of (Adapter.handleTestEvent env event state this)).
Proof.
  destruct event; cbn [Adapter.handleTestEvent state_of];
    try apply grown_refl.
  - apply grown_startSuite.
  - apply grown_and_then; [apply grown_startTestCase | intros; apply grown_pendingTestCase].
  - apply grown_and_then; [apply grown_startTestCase | intros; apply grown_pendingTestCase].
  - apply grown_startSuite.
  - apply grown_startHook.
  - apply grown_endHook.
  - apply grown_endHook.
  - apply grown_startTestCase.
  - destruct (0 <? length (errors test)); [apply grown_failTestCase | apply grown_passTestCase].
  - apply grown_failTestCase.
  - apply grown_and_then; [|intros; apply grown_endTest].
    destruct (0 <? length (errors test)); [apply grown_failTestCase | apply grown_refl].
  - apply grown_endSuite.
  - apply grown_endTestFile_from.
Qed.

Lemma grown_handle_all env state events : forall this,
  grown_from (Adapter.reporter this) (state_of (handle_all env state events this)).
Proof.
  induction events as [|e events IH]; intros this; cbn [handle_all];
    [apply grown_refl|].
  apply grown_and_then; [apply grown_handleTestEvent|].
  intros r1. apply (IH (Adapter.mkAdapter r1 _ _)).
Qed.

(** X13: whatever events are handled, and whether or not one of them
    throws, the reporter afterwards has the earlier table of test names and
    the earlier written files as a prefix of its own: names recorded by
    [startSuite] are never removed, not even when their suite ends, and no
    file is taken back.  The base URLs, the code flag and the accumulated
    labels are never assigned. *)
Theorem events_only_append (env : Environment) (state : State)
    (events : list Adapter.Event) (this : Adapter.AllureBaseEnvironment) :
  let r := Adapter.reporter this in
  let r' := state_of (handle_all env state events this) in
  testNames r `prefix_of` testNames r'
  /\ files (allureRuntime r) `prefix_of` files (allureRuntime r')
  /\ jiraUrl r' = jiraUrl r
  /\ tmsUrl r' = tmsUrl r
  /\ addCodeInReport r' = addCodeInReport r
  /\ Reporter.labels r' = Reporter.labels r.
Proof.
  intros r r'.
  destruct (grown_handle_all env state events this)
    as (Hn & Hf & _ & Hj & Ht & Ha & Hl & _).
  repeat split; assumption.
Qed.

(** X14: the current executable is always in the store.  This holds for a
    new reporter and is kept by every sequence of events, so the assignments
    of [endHook] always reach a fixture. *)
Theorem executable_always_stored (env : Environment) (state : State)
    (events : list Adapter.Event) (this : Adapter.AllureBaseEnvironment)
    (options : Options) :
  executable_stored (new options)
  /\ (executable_stored (Adapter.reporter this) ->
      executable_stored (state_of (handle_all env state events this))).
Proof.
  split; [intros a H; discriminate H|].
  intros Hstored a Ha.
  destruct (grown_handle_all env state events this)
    as (_ & _ & Hlen & _ & _ & _ & _ & [He | (b & Hb & Hlt)]).
  - rewrite He in Ha. apply Hstored in Ha. lia.
  - rewrite Hb in Ha. injection Ha as <-. exact Hlt.
Qed.

Lemma executable_always_stored_witness :
  let this := Adapter.mkAdapter Sample.fresh_reporter "a/b.spec.ts" "b.spec.ts" in
  let events := [Adapter.run_start; Adapter.hook_start "beforeAll"; Adapter.hook_success] in
  executable_stored (Adapter.reporter this)
  /\ executable_stored (state_of (handle_all Sample.env (mkState None) events this))
  /\ currentExecutable (state_of (handle_all Sample.env (mkState None) events this))
     = Some 0.
Proof.
  intros this events.
  assert (H : executable_stored (Adapter.reporter this)) by (intros a Ha; discriminate Ha).
  split; [exact H|].
  split; [|reflexivity].
  exact (proj2 (executable_always_stored Sample.env (mkState None) events this
                  Sample.options) H).
Defined.

(** ** A hook and the container of its suite *)

Lemma before_is_not_after (ty : string) :
  Js.startsWith ty "before" = true -> Js.startsWith ty "after" = false.
Proof.
  unfold Js.startsWith. destruct ty as [|c ty]; [discriminate|].
  cbn [String.prefix].
  destruct (ascii_dec "b" c) as [<-|]; [intros _; reflexivity | intros H; discriminate H].
Qed.

Lemma deref_older (f : Fixture -> Fixture) (x : Fixture) (rt : AllureRuntime)
    (bs : list nat) :
  addresses_stored rt bs ->
  deref (update_fixture (length (fixtures rt)) f
           (mkRuntime (fixtures rt ++ [x]) (files rt) (clock_reads rt) (uuid_draws rt))) bs
  = deref rt bs.
Proof.
  unfold addresses_stored, deref. cbn. induction 1 as [|b bs Hb _ IH]; [reflexivity|].
  cbn. rewrite IH, list_lookup_alter_ne by lia.
  now rewrite lookup_app_l by exact Hb.
Qed.

(** X15: a hook that was started and ended is written with its outcome.
    The wrapper that [endHook] assigns to and the fixture in the container of
    the suite are the same object: when the suite is closed, its container
    lists the fixtures it had before, then the new one with the status that
    [endHook] set and stage [FINISHED]. *)
Theorem ended_hook_is_written (env : Environment) (ty : string) (e : Thrown)
    (r r2 : AllureReporter) (g : AllureGroup) :
  currentSuite r = Some g ->
  Js.startsWith ty "before" = true ->
  addresses_stored (allureRuntime r) (befores g) ->
  addresses_stored (allureRuntime r) (afters g) ->
  endHook e (startHook ty r) = Returns r2 ->
  exists r3 st d,
    endSuite env r2 = Returns r3
    /\ last (files (allureRuntime r3))
       = Some (ContainerFile
                 (mkGroup (group_uuid g) (group_name g) (children g)
                          (befores g ++ [length (fixtures (allureRuntime r))]) (afters g))
                 (deref (allureRuntime r) (befores g)
                    ++ [mkFixture (Some st) (default empty_details d) FINISHED])
                 (deref (allureRuntime r) (afters g)))
    /\ (if is_truthy e
        then exists m tr, handleError e = Ok (st, m, tr)
                          /\ d = Some (mkDetails (Some m) (Some tr))
        else st = PASSED /\ d = None).
Proof.
  intros Hg Hbefore Hb Ha Hend.
  pose proof (before_is_not_after ty Hbefore) as Hafter.
  set (a := length (fixtures (allureRuntime r))) in *.
  set (g1 := mkGroup (group_uuid g) (group_name g) (children g) (befores g ++ [a])
                     (afters g)).
  set (rt1 := mkRuntime (fixtures (allureRuntime r) ++ [new_fixture])
                        (files (allureRuntime r)) (clock_reads (allureRuntime r))
                        (uuid_draws (allureRuntime r))).
  assert (Hr1 : startHook ty r
                = set_currentExecutable (Some a)
                    (set_allureRuntime rt1 (set_suites (set_top g1 (suites r)) r))).
  { unfold startHook. rewrite Hg, Hbefore. unfold currentSuite, addBefore.
    cbn [suites set_suites set_allureRuntime set_currentExecutable].
    rewrite last_set_top, Hafter. reflexivity. }
  rewrite Hr1 in Hend.
  match type of Hend with
  | endHook e ?x = _ =>
      destruct (endHook_resolves e x r2 a eq_refl Hend) as (st & d & -> & Hst)
  end.
  match goal with
  | |- context [endSuite env ?x] =>
      assert (Hcur : currentSuite x = Some g1) by apply last_set_top;
      pose proof (endSuite_returns env x g1 Hcur) as Hes
  end.
  cbv zeta in Hes. eexists _, st, d. split; [exact Hes|]. split; [|exact Hst].
  cbn [allureRuntime files set_allureRuntime]. rewrite last_snoc.
  f_equal. subst g1. cbn [befores afters]. f_equal.
  - unfold deref at 1. rewrite omap_app. f_equal.
    + apply (deref_older (resolve st d) new_fixture (allureRuntime r) (befores g) Hb).
    + cbn. rewrite list_lookup_alter_eq, lookup_app_r by reflexivity.
      subst a. rewrite Nat.sub_diag. reflexivity.
  - apply (deref_older (resolve st d) new_fixture (allureRuntime r) (afters g) Ha).
Qed.

Lemma ended_hook_is_written_witness :
  let r := startSuite Sample.env (Some "s") None Sample.fresh_reporter in
  exists g r2,
    currentSuite r = Some g
    /\ Js.startsWith "beforeEach" "before" = true
    /\ addresses_stored (allureRuntime r) (befores g)
    /\ addresses_stored (allureRuntime r) (afters g)
    /\ endHook Nothing (startHook "beforeEach" r) = Returns r2
    /\ exists r3 st d,
         endSuite Sample.env r2 = Returns r3
         /\ last (files (allureRuntime r3))
            = Some (ContainerFile
                      (mkGroup (group_uuid g) (group_name g) (children g)
                               (befores g ++ [length (fixtures (allureRuntime r))])
                               (afters g))
                      (deref (allureRuntime r) (befores g)
                         ++ [mkFixture (Some st) (default empty_details d) FINISHED])
                      (deref (allureRuntime r) (afters g)))
         /\ (if is_truthy Nothing
             then exists m tr, handleError Nothing = Ok (st, m, tr)
                               /\ d = Some (mkDetails (Some m) (Some tr))
             else st = PASSED /\ d = None).
Proof.
  intros r. eexists _, _.
  split; [reflexivity|]. split; [reflexivity|].
  split; [constructor|]. split; [constructor|]. split; [reflexivity|].
  apply (ended_hook_is_written Sample.env "beforeEach" Nothing r);
    [reflexivity | reflexivity | constructor | constructor | reflexivity].
Defined.

(** ** The path of the test file *)

Lemma replace_unfold (s pat rep : string) :
  Js.replace s pat rep
  = if String.prefix pat s then (rep ++ Js.slice_from (String.length pat) s)%string
    else match s with
         | EmptyString => EmptyString
         | String c s' => String c (Js.replace s' pat rep)
         end.
Proof. destruct s; reflexivity. Qed.

Lemma prefix_app (p s : string) : String.prefix p (p ++ s) = true.
Proof.
  induction p as [|c p IH]; [destruct s; reflexivity|].
  cbn. destruct (ascii_dec c c); [exact IH | congruence].
Qed.

Lemma substring_all (s : string) : String.substring 0 (String.length s) s = s.
Proof. induction s as [|c s IH]; [reflexivity|]. cbn. now rewrite IH. Qed.

Lemma slice_from_app (p s : string) : Js.slice_from (String.length p) (p ++ s) = s.
Proof.
  unfold Js.slice_from. induction p as [|c p IH]; cbn.
  - rewrite Nat.sub_0_r. apply substring_all.
  - exact IH.
Qed.

Lemma replace_leading (p s : string) : Js.replace (p ++ s) p "" = s.
Proof. rewrite replace_unfold, prefix_app, slice_from_app. reflexivity. Qed.

Lemma initializeTestPath_below_root (rootDir rel : string) :
  Adapter.initializeTestPath None rootDir (Some (rootDir ++ "/" ++ rel)%string) = rel.
Proof.
  unfold Adapter.initializeTestPath. cbn [default from_option id].
  rewrite replace_leading. unfold Js.startsWith. rewrite (prefix_app "/" rel).
  apply (slice_from_app "/" rel).
Qed.

(** X16: [initializeTestPath] gives the path below the root: for a test
    file at [rootDir + "/" + rel] the result is [rel], with the configured
    [testPath] in the place of [rootDir] when there is one; exactly one slash
    is dropped.  Without a path in the context the result is empty. *)
Theorem initializeTestPath_relative (rootDir configured rel : string) :
  Adapter.initializeTestPath None rootDir (Some (rootDir ++ "/" ++ rel)%string) = rel
  /\ Adapter.initializeTestPath (Some configured) rootDir (Some (configured ++ "/" ++ rel)%string)
     = rel
  /\ Adapter.initializeTestPath None rootDir None = ""
  /\ Adapter.initializeTestPath (Some configured) rootDir None = "".
Proof.
  unfold Adapter.initializeTestPath. cbn [default from_option id].
  rewrite !replace_leading.
  assert (Hs : forall x, (if Js.startsWith ("/" ++ x) "/" then Js.slice_from 1 ("/" ++ x)
                          else ("/" ++ x)%string) = x).
  { intros x. unfold Js.startsWith. rewrite (prefix_app "/" x).
    apply (slice_from_app "/" x). }
  rewrite !Hs.
  assert (He : forall p, (if Js.startsWith (Js.replace "" p "") "/"
                          then Js.slice_from 1 (Js.replace "" p "")
                          else Js.replace "" p "") = "").
  { intros p. destruct p; reflexivity. }
  rewrite !He. auto.
Qed.

Lemma split_without_separator (c : ascii) (s : string) :
  Forall (fun a => Ascii.eqb a c = false) (list_ascii_of_string s) ->
  Js.split c s = [s].
Proof.
  induction s as [|a s IH]; cbn; [reflexivity|].
  intros H. inversion H as [|? ? Ha Hs]; subst.
  rewrite Ha, (IH Hs). reflexivity.
Qed.

(** X17: a test file that lies directly in the root directory gets its file
    name as parent suite and as package, and neither a suite nor a sub-suite
    label (on a system whose delimiter is the slash). *)
Theorem root_level_file_labels (env : Environment) (t : AllureTest)
    (rootDir : string) (c : ascii) (file : string) :
  os_type env <> "Windows_NT" ->
  Forall (fun a => Ascii.eqb a "/" = false) (list_ascii_of_string (String c file)) ->
  Sink.labels
    (addSuiteLabelsToTestCase env t
       (Adapter.initializeTestPath None rootDir (Some (rootDir ++ "/" ++ String c file)%string)))
  = Sink.labels t
    ++ [mkLabel LabelName.PARENT_SUITE (String c file);
        mkLabel LabelName.PACKAGE (String c file)].
Proof.
  intros Hos Hfile.
  rewrite (initializeTestPath_below_root rootDir (String c file)).
  apply String.eqb_neq in Hos.
  unfold addSuiteLabelsToTestCase. rewrite Hos.
  rewrite (split_without_separator "/" _ Hfile). cbn.
  now rewrite <- app_assoc.
Qed.

Lemma root_level_file_labels_witness :
  os_type Sample.env <> "Windows_NT"
  /\ Forall (fun a => Ascii.eqb a "/" = false) (list_ascii_of_string "c.spec.ts")
  /\ Sink.labels
       (addSuiteLabelsToTestCase Sample.env Sample.blank_test
          (Adapter.initializeTestPath None "/repo" (Some "/repo/c.spec.ts")))
     = Sink.labels Sample.blank_test
       ++ [mkLabel LabelName.PARENT_SUITE "c.spec.ts"; mkLabel LabelName.PACKAGE "c.spec.ts"].
Proof.
  assert (H1 : os_type Sample.env <> "Windows_NT") by discriminate.
  assert (H2 : Forall (fun a => Ascii.eqb a "/" = false) (list_ascii_of_string "c.spec.ts")).
  { repeat constructor. }
  split; [exact H1|]. split; [exact H2|].
  exact (root_level_file_labels Sample.env Sample.blank_test "/repo" "c" ".spec.ts" H1 H2).
Defined.

(** ** The form of the history identifier *)

Lemma length_string_of_list_ascii (l : list ascii) :
  String.length (string_of_list_ascii l) = length l.
Proof. induction l as [|c l IH]; cbn; [reflexivity | now rewrite IH]. Qed.

Lemma hex_digit_is_hex (d : Z) : is_hex_digit (MD5.hex_digit d) = true.
Proof.
  unfold MD5.hex_digit. generalize (Z.to_nat d). intros n.
  do 17 (destruct n as [|n]; [reflexivity|]). destruct n; reflexivity.
Qed.

Lemma hex_form (bs : list Z) :
  String.length (MD5.hex bs) = 2 * length bs
  /\ forallb is_hex_digit (list_ascii_of_string (MD5.hex bs)) = true.
Proof.
  unfold MD5.hex. rewrite length_string_of_list_ascii, list_ascii_of_string_of_list_ascii.
  induction bs as [|b bs [IH1 IH2]]; [split; reflexivity|].
  cbn [flat_map app length forallb]. rewrite !hex_digit_is_hex, IH2.
  split; [cbn [length]; lia | reflexivity].
Qed.

Lemma length_le_bytes (n : nat) : forall x, length (MD5.le_bytes n x) = n.
Proof. induction n as [|n IH]; intros x; cbn; [reflexivity | now rewrite IH]. Qed.



(** ** Matching keeps the text *)

Lemma further_refl z : further z z.
Proof. split; [reflexivity | lia]. Qed.

Lemma further_trans z1 z2 z3 : further z1 z2 -> further z2 z3 -> further z1 z3.
Proof. intros [H1 L1] [H2 L2]. split; [congruence | lia]. Qed.

(** A match hands a position of the same text, further on, to what follows
    it. *)
Lemma run_further (r : Regex.regex) : forall (R : Type) z (k : Regex.position -> option R) res,
  Regex.run r z k = Some res ->
  exists z', further z z' /\ k z' = Some res.
Proof.
  induction r as [| |p|r1 IH1 r2 IH2|r1 IH1 r2 IH2|r1 IH1|r1 IH1];
    intros R z k res; cbn [Regex.run].
  - intros H. exists z. split; [apply further_refl | exact H].
  - destruct (Regex.at_line_start z); [|discriminate].
    intros H. exists z. split; [apply further_refl | exact H].
  - destruct z as [b [|c rest]]; cbn [fst snd]; [discriminate|].
    destruct (p c); [|discriminate].
    intros H. exists (c :: b, rest). split; [|exact H].
    split; cbn; [now rewrite <- app_assoc | lia].
  - intros (z1 & F1 & H1)%IH1. apply IH2 in H1 as (z2 & F2 & H2).
    exists z2. split; [eapply further_trans; eassumption | exact H2].
  - unfold Regex.or_try. destruct (Regex.run r1 z k) as [x|] eqn:E.
    + intros [= <-]. apply IH1 in E. exact E.
    + apply IH2.
  - generalize (length z.2). intros n. revert z.
    induction n as [|n IHn]; intros z.
    + intros H. exists z. split; [apply further_refl | exact H].
    + unfold Regex.or_try at 1.
      match goal with
      | |- match ?c with _ => _ end = _ -> _ => destruct c as [x|] eqn:E
      end.
      * intros [= <-]. apply IH1 in E as (z1 & F1 & H1).
        destruct (length z1.2 <? length z.2); [|discriminate].
        apply IHn in H1 as (z2 & F2 & H2).
        exists z2. split; [eapply further_trans; eassumption | exact H2].
      * intros H. exists z. split; [apply further_refl | exact H].
  - generalize (length z.2). intros n. revert z.
    induction n as [|n IHn]; intros z.
    + intros H. exists z. split; [apply further_refl | exact H].
    + unfold Regex.or_try at 1. destruct (k z) as [x|] eqn:E.
      * intros [= <-]. exists z. split; [apply further_refl | exact E].
      * intros (z1 & F1 & H1)%IH1.
        destruct (length z1.2 <? length z.2); [|discriminate].
        apply IHn in H1 as (z2 & F2 & H2).
        exists z2. split; [eapply further_trans; eassumption | exact H2].
Qed.

Lemma search_further (r : Regex.regex) (after : list ascii) : forall before b e,
  Regex.search r before after = Some (b, e) ->
  further (before, after) b /\ further b e.
Proof.
  induction after as [|c rest IH]; intros before b e; cbn [Regex.search];
    unfold Regex.match_at.
  - destruct (Regex.run r (before, []) Some) as [x|] eqn:E; [|discriminate].
    intros [= <- <-]. apply run_further in E as (z' & F & [= ->]).
    split; [apply further_refl | exact F].
  - destruct (Regex.run r (before, c :: rest) Some) as [x|] eqn:E.
    + intros [= <- <-]. apply run_further in E as (z' & F & [= ->]).
      split; [apply further_refl | exact F].
    + intros H. apply IH in H as [F1 F2]. split; [|exact F2].
      eapply further_trans; [|exact F1].
      split; cbn; [now rewrite <- app_assoc | lia].
Qed.

Lemma suffix_of_same_text {A} (l2 : list A) : forall l1 s1 s2,
  l1 ++ s1 = l2 ++ s2 -> length s1 <= length s2 -> exists x, s2 = x ++ s1.
Proof.
  induction l2 as [|a l2 IH]; intros l1 s1 s2 H Hlen.
  - exists l1. symmetry. exact H.
  - destruct l1 as [|a' l1].
    + cbn in H. subst s1. cbn in Hlen. rewrite length_app in Hlen. lia.
    + injection H as _ H. eapply IH; eassumption.
Qed.

Lemma matched_then_rest (b e : Regex.position) :
  further b e -> b.2 = Regex.matched b e ++ e.2.
Proof.
  intros [H Hlen].
  destruct (suffix_of_same_text (rev b.1) (rev e.1) e.2 b.2 H Hlen) as [x Hx].
  unfold Regex.matched. rewrite Hx, length_app.
  replace (length x + length e.2 - length e.2) with (length x) by lia.
  now rewrite take_app_length.
Qed.

Lemma string_of_list_ascii_app (l1 l2 : list ascii) :
  string_of_list_ascii (l1 ++ l2)
  = (string_of_list_ascii l1 ++ string_of_list_ascii l2)%string.
Proof. induction l1 as [|c l1 IH]; cbn; [reflexivity | now rewrite IH]. Qed.

Lemma split_expect_joins (s : string) : Js.join "" (Text.split_expect s) = s.
Proof.
  unfold Text.split_expect.
  destruct (Regex.search Text.expectRe [] (list_ascii_of_string s)) as [[b e]|] eqn:E;
    [|reflexivity].
  apply search_further in E as [[Hb _] He].
  apply matched_then_rest in He. cbn in Hb.
  unfold Js.join. cbn [String.concat]. cbn [String.append].
  rewrite <- !string_of_list_ascii_app, <- He, Hb.
  apply string_of_list_ascii_of_string.
Qed.

(** X19: [extractCodeDetails] drops no code.  The pieces that the source
    without its docblock is split into at the first [expect] make up that
    source again, and when the piece before the first [expect] contains
    [wait_for_] the formatter is given exactly the source without its
    docblock. *)
Theorem extractCodeDetails_keeps_code (env : Environment) (serializedTestCode : string) :
  let docblock := Text.extractDocBlock serializedTestCode in
  let body := Js.replace serializedTestCode docblock "" in
  Js.join "" (Text.split_expect body) = body
  /\ (Js.includes (Js.or_empty (head (Text.split_expect body))) "wait_for_" = true ->
      extractCodeDetails env serializedTestCode
      = ((parseWithComments env docblock).1, (parseWithComments env docblock).2,
         prettier_format env body)).
Proof.
  intros docblock body. split; [apply split_expect_joins|].
  intros Hwait. unfold extractCodeDetails. fold docblock. fold body.
  destruct (parseWithComments env docblock) as [comments pragmas].
  rewrite Hwait, split_expect_joins. reflexivity.
Qed.

Lemma extractCodeDetails_keeps_code_witness :
  let source := "async () => { await wait_for_(page); expect(1).toBe(1); }" in
  Js.includes (Js.or_empty (head (Text.split_expect
     (Js.replace source (Text.extractDocBlock source) "")))) "wait_for_" = true
  /\ extractCodeDetails Sample.env source = ("", [], source).
Proof.
  intros source.
  assert (H : Js.includes (Js.or_empty (head (Text.split_expect
                 (Js.replace source (Text.extractDocBlock source) "")))) "wait_for_" = true)
    by (vm_compute; reflexivity).
  split; [exact H|].
  exact (proj2 (extractCodeDetails_keeps_code Sample.env source) H).
Defined.

(** ** The docblock *)

Lemma search_matches (r : Regex.regex) (after : list ascii) : forall before b e,
  Regex.search r before after = Some (b, e) -> Regex.match_at r b = Some e.
Proof.
  induction after as [|c rest IH]; intros before b e; cbn [Regex.search].
  - destruct (Regex.match_at r (before, [])) eqn:E; [|discriminate].
    intros [= <- <-]. exact E.
  - destruct (Regex.match_at r (before, c :: rest)) eqn:E.
    + intros [= <- <-]. exact E.
    + apply IH.
Qed.

(** A repetition of a character class reads characters of the class. *)
Lemma run_star_class (p : ascii -> bool) (R : Type) (k : Regex.position -> option R)
    (res : R) : forall z,
  Regex.run (Regex.Star (Regex.Cls p)) z k = Some res ->
  exists w z', Forall (fun c => p c = true) w
               /\ z.2 = w ++ z'.2 /\ k z' = Some res.
Proof.
  intros z. cbn [Regex.run]. generalize (length z.2). intros n. revert z.
  induction n as [|n IHn]; intros z.
  - intros H. exists [], z. auto.
  - unfold Regex.or_try at 1.
    destruct z as [b [|c rest]]; cbn [fst snd].
    + intros H. exists [], (b, []). auto.
    + destruct (p c) eqn:Hp.
      * cbn [fst snd length]. rewrite (proj2 (Nat.ltb_lt _ _) (Nat.lt_succ_diag_r _)).
        match goal with
        | |- match ?c with _ => _ end = _ -> _ => destruct c as [x|] eqn:E
        end.
        -- intros [= <-]. apply IHn in E as (w & z' & Hw & Hz & Hk).
           exists (c :: w), z'. cbn [fst snd] in Hz. rewrite Hz. auto.
        -- intros H. exists [], (b, c :: rest). auto.
      * intros H. exists [], (b, c :: rest). auto.
Qed.

Lemma run_char (c : ascii) (R : Type) (k : Regex.position -> option R) (res : R) z :
  Regex.run (Regex.Chr c) z k = Some res ->
  exists rest, z.2 = c :: rest /\ k (c :: z.1, rest) = Some res.
Proof.
  unfold Regex.Chr. cbn [Regex.run]. destruct z.2 as [|a rest]; [discriminate|].
  destruct (Ascii.eqb_spec c a) as [<-|]; [|discriminate].
  intros H. exists rest. auto.
Qed.

Lemma run_cat (r1 r2 : Regex.regex) (R : Type) (k : Regex.position -> option R)
    (res : R) z :
  Regex.run (Regex.Cat r1 r2) z k = Some res ->
  Regex.run r1 z (fun z' => Regex.run r2 z' k) = Some res.
Proof. intros H. exact H. Qed.

Lemma run_bol (R : Type) (k : Regex.position -> option R) (res : R) z :
  Regex.run Regex.Bol z k = Some res -> k z = Some res.
Proof. cbn [Regex.run]. destruct (Regex.at_line_start z); [auto | discriminate]. Qed.

Lemma trimStart_spaces (w rest : list ascii) :
  Forall (fun c => Js.is_space c = true) w ->
  Js.trimStart_chars (w ++ "/"%char :: rest) = "/"%char :: rest.
Proof. induction 1 as [|c w Hc _ IH]; cbn; [reflexivity | now rewrite Hc]. Qed.

Lemma includes_inside (x p y : string) : Js.includes (x ++ p ++ y) p = true.
Proof.
  induction x as [|c x IH]; cbn [String.append].
  - destruct (p ++ y)%string eqn:E; cbn [Js.includes];
      rewrite <- E, prefix_app; reflexivity.
  - cbn [Js.includes]. rewrite IH. apply orb_true_r.
Qed.

(** X20: [extractDocBlock] returns the empty string or a block comment of
    the source: the result occurs in the source, and when it is not empty it
    starts with slash-star and ends with star-slash, the white space before
    it being trimmed. *)
Theorem extractDocBlock_is_a_comment (contents : string) :
  Js.includes contents (Text.extractDocBlock contents) = true
  /\ (Text.extractDocBlock contents = ""
      \/ exists inner, Text.extractDocBlock contents = ("/*" ++ inner ++ "*/")%string).
Proof.
  unfold Text.extractDocBlock.
  destruct (Regex.search Text.docblockRe [] (list_ascii_of_string contents))
    as [[b e]|] eqn:E.
  2:{ split; [destruct contents; reflexivity | now left]. }
  pose proof (search_further _ _ _ _ _ E) as [[Hb _] Hbe].
  apply search_matches in E. cbn [fst snd rev app] in Hb.
  pose proof (matched_then_rest b e Hbe) as Hm.
  unfold Regex.match_at, Text.docblockRe, Text.Concat in E.
  cbn [fold_right] in E.
  apply run_cat in E. apply run_bol in E.
  apply run_cat in E. apply (run_star_class Js.is_space) in E as (w & z1 & Hw & Hz1 & E).
  apply run_cat in E. apply run_char in E as (rest1 & Hr1 & E).
  apply run_cat in E. apply run_char in E as (rest2 & Hr2 & E).
  cbn [fst snd] in Hr2. subst rest1.
  apply run_cat in E. apply run_further in E as (z2 & F2 & E).
  apply run_cat in E. apply run_further in E as (z3 & F3 & E).
  apply run_cat in E. apply run_char in E as (rest3 & Hr3 & E).
  apply run_cat in E. apply run_char in E as (rest4 & Hr4 & E).
  cbn [fst snd] in Hr4. subst rest3.
  cbn [Regex.run] in E. injection E as <-.
  pose proof (further_trans _ _ _ F2 F3) as [F Flen]. cbn [fst snd] in F, Flen.
  destruct (suffix_of_same_text _ _ _ _ F Flen) as [x Hx].
  assert (Hb2 : b.2 = (w ++ "/"%char :: "*"%char :: x ++ ["*"%char; "/"%char]) ++ rest4).
  { rewrite Hz1, Hr1, Hx, Hr3. rewrite <- !app_assoc. cbn. rewrite <- app_assoc.
    reflexivity. }
  cbn [snd] in Hm. rewrite Hb2 in Hm. apply app_inv_tail in Hm.
  rewrite <- Hm. unfold Js.trimStart.
  rewrite list_ascii_of_string_of_list_ascii, (trimStart_spaces w _ Hw).
  split.
  - rewrite <- (string_of_list_ascii_of_string contents) at 1.
    rewrite <- Hb, Hb2.
    set (P := "/"%char :: "*"%char :: x ++ ["*"%char; "/"%char]).
    replace (rev b.1 ++ (w ++ P) ++ rest4) with ((rev b.1 ++ w) ++ P ++ rest4)
      by (rewrite <- !app_assoc; reflexivity).
    rewrite !string_of_list_ascii_app. apply includes_inside.
  - right. exists (string_of_list_ascii x).
    change ("/"%char :: "*"%char :: x ++ ["*"%char; "/"%char])
      with (["/"%char; "*"%char] ++ x ++ ["*"%char; "/"%char]).
    rewrite !string_of_list_ascii_app. reflexivity.
Qed.

(** ** A run of passing tests *)

Lemma one_passing_test env state path fname (t : TestEntry) (r : AllureReporter)
    (g : AllureGroup) :
  currentSuite r = Some g ->
  errors t = [] ->
  exists res r3 g3,
    (forall rest,
        handle_all env state (passing_test t ++ rest) (Adapter.mkAdapter r path fname)
        = handle_all env state rest (Adapter.mkAdapter r3 path fname))
    /\ tests r3 = tests r
    /\ steps r3 = steps r
    /\ currentSuite r3 = Some g3
    /\ removelast (suites r3) = removelast (suites r)
    /\ g3 = add_child (uuid res) g
    /\ testNames r3 = testNames r
    /\ files (allureRuntime r3) = files (allureRuntime r) ++ [ResultFile res]
    /\ name res = or_unnamed (test_name t)
    /\ historyId res = MD5.md5_hex (path ++ "." ++ test_name t)
    /\ status res = Some PASSED
    /\ stage res = FINISHED
    /\ is_Some (stop res).
Proof.
  intros Hg Herr.
  destruct (startTestCase_pushes env t state path r g Hg)
    as (t0 & r1 & Hr1 & Ht & Hst & Hsu & _ & Hn & _ & _ & Hw & _ & Hu & Hname & Hh & _).
  assert (Hcur1 : currentTest r1 = Some t0).
  { unfold currentTest. rewrite Ht. apply last_snoc. }
  pose proof (core_attachLabelsInConcurrent r1 t0 (Reporter.labels r1)) as Hc.
  set (t1 := set_status PASSED (attachLabelsInConcurrent r1 t0 (Reporter.labels r1))).
  set (r2 := set_tests (set_top t1 (tests r1)) r1).
  assert (Hcur2 : currentTest r2 = Some t1) by apply last_set_top.
  pose proof (endTest_returns env r2 t1 Hcur2) as He. cbv zeta in He.
  match type of He with
  | context [ResultFile ?x] => set (res := x) in *
  end.
  match type of He with _ = Returns ?x => set (r3 := x) in * end.
  exists res, r3, (add_child (uuid res) g).
  split.
  { intros rest. cbn [passing_test app handle_all Adapter.handleTestEvent
                      Adapter.reporter Adapter.testPath Adapter.testFileName].
    rewrite Hr1. cbn [and_then handle_all Adapter.handleTestEvent Adapter.reporter
                      Adapter.testPath Adapter.testFileName].
    rewrite Herr. cbn [length Nat.ltb Nat.leb].
    unfold passTestCase. rewrite Hcur1.
    cbn [and_then handle_all Adapter.handleTestEvent Adapter.reporter
         Adapter.testPath Adapter.testFileName].
    fold t1. fold r2. rewrite He.
    reflexivity. }
  assert (Hres : uuid res = uuid t0 /\ name res = name t0
                 /\ historyId res = historyId t0).
  { subst res t1. cbn. core_fields Hc. auto. }
  destruct Hres as (Hru & Hrn & Hrh).
  split; [cbn; rewrite removelast_set_top, Ht; apply removelast_last|].
  split; [exact Hst|].
  split; [unfold currentSuite; change (suites r3) with (suites r1);
          rewrite Hsu, Hru; apply last_set_top|].
  split; [change (suites r3) with (suites r1); rewrite Hsu;
          apply removelast_set_top|].
  split; [reflexivity|].
  split; [exact Hn|].
  split; [cbn; rewrite Hw; reflexivity|].
  split; [congruence|]. split; [congruence|].
  split; [reflexivity|]. split; [reflexivity|]. cbn. eauto.
Qed.

Lemma passing_tests env state path fname : forall (ts : list TestEntry)
    (r : AllureReporter) (g : AllureGroup),
  currentSuite r = Some g ->
  Forall (fun t => errors t = []) ts ->
  exists results r',
    (forall rest,
        handle_all env state (flat_map passing_test ts ++ rest)
          (Adapter.mkAdapter r path fname)
        = handle_all env state rest (Adapter.mkAdapter r' path fname))
    /\ tests r' = tests r
    /\ steps r' = steps r
    /\ testNames r' = testNames r
    /\ suites r'
       = set_top (mkGroup (group_uuid g) (group_name g)
                    (children g ++ map uuid results) (befores g) (afters g))
           (suites r)
    /\ files (allureRuntime r') = files (allureRuntime r) ++ map ResultFile results
    /\ map name results = map (fun t => or_unnamed (test_name t)) ts
    /\ map historyId results
       = map (fun t => MD5.md5_hex (path ++ "." ++ test_name t)) ts
    /\ Forall (fun res => status res = Some PASSED /\ stage res = FINISHED
                          /\ is_Some (stop res)) results.
Proof.
  induction ts as [|t ts IH]; intros r g Hg Hall.
  - exists [], r. cbn [flat_map map app]. rewrite !app_nil_r.
    split; [reflexivity|]. do 3 (split; [reflexivity|]).
    split; [symmetry; apply set_top_last; destruct g; exact Hg|].
    do 3 (split; [reflexivity|]). constructor.
  - inversion Hall as [|? ? Herr Hall']; subst.
    destruct (one_passing_test env state path fname t r g Hg Herr)
      as (res & r3 & g3 & Hrun & Ht & Hst & Hcur & Hrem & Hg3 & Hn & Hw & Hname
          & Hh & Hstatus & Hstage & Hstop).
    destruct (IH r3 g3 Hcur Hall')
      as (results & r' & Hrun' & Ht' & Hst' & Hn' & Hsu' & Hw' & Hnames & Hhs & Hres).
    exists (res :: results), r'.
    split.
    { intros rest. cbn [flat_map]. rewrite <- app_assoc, Hrun. apply Hrun'. }
    split; [congruence|]. split; [congruence|]. split; [congruence|].
    split.
    { rewrite Hsu'. unfold set_top. rewrite Hrem. subst g3.
      cbn [add_child group_uuid group_name children befores afters map].
      now rewrite <- app_assoc. }
    split; [rewrite Hw', Hw; cbn [map]; now rewrite <- app_assoc|].
    split; [cbn [map]; congruence|]. split; [cbn [map]; congruence|].
    constructor; auto.
Qed.


